(** * ELID device registry: worker lifecycle, transaction emitter, device service

    A shallow embedding of the backend services of the ELID repository
    (src/backend/src): the SQLAlchemy models, the device and transaction
    services, the payload generator, the asyncio worker registry and the
    startup reconciliation of [main.lifespan], followed by the properties
    the specification states about them. *)

From Stdlib Require Import ZArith NArith Ascii String List Bool Lia.
From stdpp Require Import base option gmap strings list fin_maps pretty sorting.

Local Open Scope string_scope.

(** ** db/models.py *)

(** A [uuid.UUID] is an opaque 128-bit identifier; only equality is used. *)
Definition UUID := N.

(** A [datetime] as an instant on a discrete time line. *)
Definition Time := Z.

Inductive DeviceType := ACCESS_CONTROLLER | FACE_READER | ANPR.

Inductive DeviceStatus := INACTIVE | ACTIVE.

#[global] Instance DeviceType_eq_dec : EqDecision DeviceType.
Proof. solve_decision. Defined.

#[global] Instance DeviceStatus_eq_dec : EqDecision DeviceStatus.
Proof. solve_decision. Defined.

(** The values a generated payload holds: a number with two decimals (kept as
    its count of hundredths, so [JCenti 87] is 0.87), an integer, a string. *)
Inductive JVal :=
| JCenti (hundredths : Z)
| JInt (n : Z)
| JStr (s : string).

(** Row of table [devices]. *)
Record Device := mkDevice {
  id : UUID;
  name : string;
  device_type : DeviceType;
  ip_address : string;
  status : DeviceStatus;
  created_at : Time;
  updated_at : Time;
}.

(** Row of table [transactions]. *)
Record Transaction := mkTransaction {
  transaction_id : UUID;
  device_id : UUID;
  timestamp : Time;
  username : string;
  event_type : string;
  payload : option (gmap string JVal);
  tx_created_at : Time;
}.

(** The two tables, each keyed by its primary key. *)
Record Db := mkDb {
  devices : gmap UUID Device;
  transactions : gmap UUID Transaction;
}.

Definition empty_db : Db := mkDb ∅ ∅.

(** ** Exceptions *)

Inductive ValueMsg :=
| DeviceDoesNotExist (device : UUID)
| InvalidDeviceType (valid_types : list string).

Inductive Exception :=
| ValueError (msg : ValueMsg)
| IntegrityError
| DataError
| RuntimeError (msg : string).

(** A call either raises or returns. *)
Definition Result (A : Type) : Type := Exception + A.
Definition Raise {A} (e : Exception) : Result A := inl e.
Definition Return {A} (x : A) : Result A := inr x.

(** ** schema/device.py and schema/transaction.py *)

(** [DeviceCreate] inherits the three fields of [DeviceBase] and adds none. *)
Record DeviceCreate := mkDeviceCreate {
  dc_name : string;
  dc_device_type : string;
  dc_ip_address : string;
}.

Record TransactionCreate := mkTransactionCreate {
  tc_username : string;
  tc_event_type : string;
  tc_payload : option (gmap string JVal);
  tc_device_id : UUID;
}.

(** ** services/device_service.py *)

(** [str.upper] is the interpreter's: it follows the Unicode case mappings
    (one character can become several, and characters outside ASCII can
    become ASCII letters), and those tables are no part of the repository.
    The functions that call it take it as the parameter [str_upper], so what
    is proved of them holds whatever the mapping is.

    [ascii_upper] is one such mapping, used in the examples: it upper-cases
    the letters a to z and leaves every other byte, which is what
    [str.upper] does on ASCII text. *)
Definition ascii_upper_char (c : ascii) : ascii :=
  let n := nat_of_ascii c in
  if (97 <=? n)%nat && (n <=? 122)%nat then ascii_of_nat (n - 32) else c.

Fixpoint ascii_upper (s : string) : string :=
  match s with
  | EmptyString => EmptyString
  | String c s' => String (ascii_upper_char c) (ascii_upper s')
  end.

(** [DeviceType[key]]: lookup of an enum member by name; [None] is KeyError. *)
Definition DeviceType_getitem (key : string) : option DeviceType :=
  if String.eqb key "ACCESS_CONTROLLER" then Some ACCESS_CONTROLLER
  else if String.eqb key "FACE_READER" then Some FACE_READER
  else if String.eqb key "ANPR" then Some ANPR
  else None.

(** [dt.value for dt in DeviceType] *)
Definition DeviceType_value (dt : DeviceType) : string :=
  match dt with
  | ACCESS_CONTROLLER => "access_controller"
  | FACE_READER => "face_reader"
  | ANPR => "anpr"
  end.

Definition DeviceType_members : list DeviceType :=
  [ACCESS_CONTROLLER; FACE_READER; ANPR].

Definition get_device_by_id (db : Db) (device_id : UUID) : option Device :=
  devices db !! device_id.

(** [db.query(Device).filter(Device.status == ACTIVE).all()] *)
Definition get_active_devices (db : Db) : list Device :=
  filter (λ d, status d = ACTIVE) (snd <$> map_to_list (devices db)).

(** [create_device]. The primary key [new_id] (the column default
    [uuid.uuid4]) and the instant [now] (the column default
    [datetime.utcnow]) are supplied by the environment.  A primary key that
    is already present makes the commit raise IntegrityError, which the
    function re-raises after the rollback.  [str_upper] is [str.upper]. *)
Definition create_device (str_upper : string → string) (db : Db)
    (device_data : DeviceCreate) (new_id : UUID) (now : Time)
    : Result Device * Db :=
  match DeviceType_getitem (str_upper (dc_device_type device_data)) with
  | None =>
      (Raise (ValueError (InvalidDeviceType (DeviceType_value <$> DeviceType_members))), db)
  | Some device_type_enum =>
      let db_device :=
        {| id := new_id;
           name := dc_name device_data;
           device_type := device_type_enum;
           ip_address := dc_ip_address device_data;
           status := INACTIVE;
           created_at := now;
           updated_at := now |} in
      match devices db !! new_id with
      | Some _ => (Raise IntegrityError, db)
      | None =>
          (Return db_device,
           {| devices := <[new_id := db_device]> (devices db);
              transactions := transactions db |})
      end
  end.

Definition toggled (s : DeviceStatus) : DeviceStatus :=
  if decide (s = ACTIVE) then INACTIVE else ACTIVE.

(** [toggle_device_status]. The UPDATE also refreshes [updated_at]
    ([onupdate=datetime.utcnow]); it changes no key and no nullable column,
    so the commit has no constraint to violate. *)
Definition toggle_device_status (db : Db) (device_id : UUID) (now : Time)
    : option Device * Db :=
  match get_device_by_id db device_id with
  | None => (None, db)
  | Some db_device =>
      let db_device' :=
        {| id := id db_device;
           name := name db_device;
           device_type := device_type db_device;
           ip_address := ip_address db_device;
           status := toggled (status db_device);
           created_at := created_at db_device;
           updated_at := now |} in
      (Some db_device',
       {| devices := <[device_id := db_device']> (devices db);
          transactions := transactions db |})
  end.

(** ** services/transaction_service.py *)

(** [create_transaction]. [new_id] is the generated primary key and [now]
    the instant read by [datetime.utcnow] during the call. *)
Definition create_transaction (db : Db) (transaction_data : TransactionCreate)
    (new_id : UUID) (now : Time) : Result Transaction * Db :=
  match devices db !! tc_device_id transaction_data with
  | None =>
      (Raise (ValueError (DeviceDoesNotExist (tc_device_id transaction_data))), db)
  | Some _ =>
      let db_transaction :=
        {| transaction_id := new_id;
           device_id := tc_device_id transaction_data;
           timestamp := now;
           username := tc_username transaction_data;
           event_type := tc_event_type transaction_data;
           payload := tc_payload transaction_data;
           tx_created_at := now |} in
      match transactions db !! new_id with
      | Some _ => (Raise IntegrityError, db)
      | None =>
          (Return db_transaction,
           {| devices := devices db;
              transactions := <[new_id := db_transaction]> (transactions db) |})
      end
  end.

(** ** Inputs from the environment *)

(** An infinite supply of values, read front to back. *)
Definition Supply (A : Type) : Type := nat → A.
Definition supply_head {A} (s : Supply A) : A := s 0%nat.
Definition supply_tail {A} (s : Supply A) : Supply A := λ i, s (S i).

(** The generator behind module [random]: the raw outputs it will produce.
    A computation that draws from it returns the rest of the supply. *)
Definition Rng := Supply N.
Definition Rand (A : Type) : Type := Rng → A * Rng.

Definition rand_ret {A} (x : A) : Rand A := λ g, (x, g).
Definition rand_bind {A B} (c : Rand A) (k : A → Rand B) : Rand B :=
  λ g, let '(x, g') := c g in k x g'.

Notation "'let*' x ':=' c 'in' k" := (rand_bind c (λ x, k))
  (at level 10, x name, c at level 100, k at level 200, only parsing).

(** [Random._randbelow n]: a value in [0, n). *)
Definition randbelow (n : N) : Rand N :=
  λ g, ((supply_head g mod n)%N, supply_tail g).

(** [random.randint(a, b)]: an integer in [a, b]. *)
Definition randint (a b : Z) : Rand Z :=
  let* k := randbelow (Z.to_N (b - a + 1)) in
  rand_ret (a + Z.of_N k)%Z.

(** [round(random.uniform(lo, hi), 2)], in hundredths: the bounds are given
    in hundredths and the result is one of the two-decimal values between
    them. *)
Definition uniform_round2 (lo hi : Z) : Rand Z := randint lo hi.

(** [random.choice(seq)] on a sequence that is not empty. *)
Definition choice {A} (dflt : A) (seq : list A) : Rand A :=
  let* i := randbelow (N.of_nat (length seq)) in
  rand_ret (nth (N.to_nat i) seq dflt).

(** [random.choices(population, k=k)]: [k] draws with replacement. *)
Fixpoint choices {A} (dflt : A) (population : list A) (k : nat) : Rand (list A) :=
  match k with
  | O => rand_ret []
  | S k' =>
      let* x := choice dflt population in
      let* xs := choices dflt population k' in
      rand_ret (x :: xs)
  end.

(** [''.join(chars)] for one-character strings. *)
Definition join (chars : list ascii) : string := string_of_list_ascii chars.

(** How an f-string renders an [int]. *)
Definition str_int (n : Z) : string := pretty n.

(** ** services/device_worker.py: payload generation *)

Definition SAMPLE_USERNAMES : list string :=
  ["john.doe"; "jane.smith"; "bob.jones"; "alice.williams";
   "charlie.brown"; "diana.prince"; "evan.davis"; "fiona.garcia"].

Definition EVENT_TYPES : list (DeviceType * list string) :=
  [(ACCESS_CONTROLLER,
     ["access_granted"; "access_denied"; "door_opened"; "door_closed";
      "access_timeout"]);
   (FACE_READER,
     ["face_match"; "face_no_match"; "face_detected"; "multiple_faces";
      "face_recognition_error"]);
   (ANPR,
     ["plate_read"; "plate_match"; "plate_no_match"; "invalid_plate";
      "vehicle_detected"])].

(** [d.get(key, default)] on a dict given by its items. *)
Fixpoint dict_get {K V} `{EqDecision K} (d : list (K * V)) (key : K) (dflt : V) : V :=
  match d with
  | [] => dflt
  | (k, v) :: d' => if decide (k = key) then v else dict_get d' key dflt
  end.

Definition plate_chars : string := "ABCDEFGHIJKLMNOPQRSTUVWXYZ".
Definition plate_nums : string := "0123456789".

Definition generate_transaction_payload (device_type : DeviceType)
    (event_type : string) : Rand (gmap string JVal) :=
  let* confidence := uniform_round2 75 99 in
  let* processing_time_ms := randint 50 500 in
  let payload : gmap string JVal :=
    <["processing_time_ms" := JInt processing_time_ms]>
      (<["confidence" := JCenti confidence]> ∅) in
  match device_type with
  | ACCESS_CONTROLLER =>
      let* c1 := randint 1000 9999 in
      let* c2 := randint 1000 9999 in
      let* r := randint 1 10 in
      rand_ret
        (<["reader_id" := JStr ("READER-" +:+ str_int r)]>
           (<["card_number" := JStr (str_int c1 +:+ "-" +:+ str_int c2)]> payload))
  | FACE_READER =>
      let* f := randint 1000 9999 in
      let* q := uniform_round2 60 100 in
      rand_ret
        (<["image_quality" := JCenti q]>
           (<["face_id" := JStr ("FACE-" +:+ str_int f)]> payload))
  | ANPR =>
      let* letters := choices "A"%char (list_ascii_of_string plate_chars) 3 in
      let* digits := choices "0"%char (list_ascii_of_string plate_nums) 4 in
      let* cam := randint 1 5 in
      let* vehicle := choice "car" ["car"; "truck"; "motorcycle"; "van"] in
      rand_ret
        (<["vehicle_type" := JStr vehicle]>
           (<["camera_id" := JStr ("CAM-" +:+ str_int cam)]>
              (<["plate_number" := JStr (join letters +:+ "-" +:+ join digits)]>
                 payload)))
  end.

(** *** Patterns of fixed length

    The patterns the specification gives for the ANPR payload are sequences
    of character classes; a string matches when it has the same length and
    each character lies in its class. *)
Inductive CharClass :=
| Range (lo hi : ascii)
| Lit (c : ascii).

Definition in_class (cc : CharClass) (c : ascii) : bool :=
  match cc with
  | Range lo hi =>
      (nat_of_ascii lo <=? nat_of_ascii c)%nat && (nat_of_ascii c <=? nat_of_ascii hi)%nat
  | Lit c' => Ascii.eqb c' c
  end.

Fixpoint fullmatch (pat : list CharClass) (s : string) : bool :=
  match pat, s with
  | [], EmptyString => true
  | cc :: pat', String c s' => in_class cc c && fullmatch pat' s'
  | _, _ => false
  end.

(** [[A-Z]{3}-[0-9]{4}] *)
Definition plate_pattern : list CharClass :=
  replicate 3 (Range "A" "Z") ++ [Lit "-"] ++ replicate 4 (Range "0" "9").

(** [CAM-[1-5]] *)
Definition camera_pattern : list CharClass :=
  [Lit "C"; Lit "A"; Lit "M"; Lit "-"; Range "1" "5"].

Definition vehicle_types : list string := ["car"; "truck"; "motorcycle"; "van"].

(** ** services/device_worker.py: the worker registry

    The module keeps its workers in the global dict [active_workers], from
    device id to [asyncio.Task].  The tasks live in the event loop; the dict
    holds handles to them.  The state below is what the module and its
    callers can observe: the dict, the tasks of the loop, the store, the log
    and the remaining inputs of the environment. *)

Inductive Level := INFO | WARNING | ERROR.

(** The messages passed to [logger], by call site. *)
Inductive LogMsg :=
| StartingWorker (device_name : string) (device : UUID)
| GeneratedTransaction (device_name event user : string) (txn : UUID)
| ErrorCreatingTransaction (device : UUID) (e : Exception)
| WorkerStopped (device_name : string) (device : UUID)
| AlreadyRunning (device : UUID)
| StartedWorker (device_name : string) (device : UUID)
| NoWorkerFound (device : UUID)
| StoppedWorker (device : UUID)
| StoppingAll (count : nat)
| AllWorkersStopped
| StartingDeviceWorkers
| FoundActiveDevices (count : nat)
| RestoredWorker (device_name : string) (device : UUID)
| SuccessfullyStarted (count : nat)
| NoActiveDevices
| StartupError (e : Exception).

Definition LogRecord : Type := Level * LogMsg.

(** Handle of an [asyncio.Task]. *)
Definition TaskId := nat.

(** Where the coroutine [device_worker] of a task stands: created by
    [asyncio.create_task] and not run yet, suspended in [asyncio.sleep], or
    finished.  The loop of [device_worker] has no exit, so a task finishes
    only through [CancelledError]. *)
Inductive TaskState := Created | Sleeping | Cancelled.

#[global] Instance TaskState_eq_dec : EqDecision TaskState.
Proof. solve_decision. Defined.

Record Task := mkTask {
  t_device_id : UUID;
  t_device_name : string;
  t_device_type : DeviceType;
  t_state : TaskState;
  t_must_cancel : bool;   (* [task.cancel()] was called, not delivered yet *)
}.

Record State := mkState {
  active_workers : gmap UUID TaskId;
  tasks : gmap TaskId Task;
  next_task : TaskId;
  db : Db;
  log : list LogRecord;       (* most recent record first *)
  rng : Rng;
  uuid4 : Supply UUID;
  utcnow : Supply Time;
}.

Definition initial_state (store : Db) (g : Rng) (ids : Supply UUID)
    (times : Supply Time) : State :=
  {| active_workers := ∅; tasks := ∅; next_task := 0%nat; db := store;
     log := []; rng := g; uuid4 := ids; utcnow := times |}.

Definition log_add (lvl : Level) (msg : LogMsg) (st : State) : State :=
  {| active_workers := active_workers st; tasks := tasks st;
     next_task := next_task st; db := db st;
     log := (lvl, msg) :: log st;
     rng := rng st; uuid4 := uuid4 st; utcnow := utcnow st |}.

Definition set_task (tid : TaskId) (t : Task) (st : State) : State :=
  {| active_workers := active_workers st;
     tasks := <[tid := t]> (tasks st);
     next_task := next_task st; db := db st; log := log st;
     rng := rng st; uuid4 := uuid4 st; utcnow := utcnow st |}.

Definition set_active_workers (m : gmap UUID TaskId) (st : State) : State :=
  {| active_workers := m; tasks := tasks st;
     next_task := next_task st; db := db st; log := log st;
     rng := rng st; uuid4 := uuid4 st; utcnow := utcnow st |}.

Definition with_state (s : TaskState) (t : Task) : Task :=
  {| t_device_id := t_device_id t; t_device_name := t_device_name t;
     t_device_type := t_device_type t; t_state := s;
     t_must_cancel := t_must_cancel t |}.

Definition with_must_cancel (b : bool) (t : Task) : Task :=
  {| t_device_id := t_device_id t; t_device_name := t_device_name t;
     t_device_type := t_device_type t; t_state := t_state t;
     t_must_cancel := b |}.

(** The emission of one iteration of [device_worker]: the three random
    picks and, inside the inner [try], the call of [create_transaction] on a
    new session.  Returns what [create_transaction] returned or raised;
    [db.close()] has no effect on the tables. *)
Definition emit_transaction (device_id : UUID) (device_type : DeviceType)
    (st : State) : Result Transaction * State :=
  let '(username, g1) := choice "" SAMPLE_USERNAMES (rng st) in
  let '(event_type, g2) :=
    choice "" (dict_get EVENT_TYPES device_type ["generic_event"]) g1 in
  let '(payload, g3) := generate_transaction_payload device_type event_type g2 in
  let transaction_data :=
    {| tc_device_id := device_id; tc_username := username;
       tc_event_type := event_type; tc_payload := Some payload |} in
  let '(r, db') :=
    create_transaction (db st) transaction_data
      (supply_head (uuid4 st)) (supply_head (utcnow st)) in
  (r,
   {| active_workers := active_workers st; tasks := tasks st;
      next_task := next_task st; db := db'; log := log st;
      rng := g3; uuid4 := supply_tail (uuid4 st);
      utcnow := supply_tail (utcnow st) |}).

(** One pass through the body of [while True] in [device_worker], from the
    return of [asyncio.sleep] to the next call of it.  The inner
    [except Exception] turns an exception of the emission into an ERROR
    record and the loop goes on. *)
Definition worker_iteration (device_id : UUID) (device_name : string)
    (device_type : DeviceType) (st : State) : State :=
  match emit_transaction device_id device_type st with
  | (inr transaction, st') =>
      log_add INFO
        (GeneratedTransaction device_name (event_type transaction)
           (username transaction) (transaction_id transaction)) st'
  | (inl e, st') => log_add ERROR (ErrorCreatingTransaction device_id e) st'
  end.

(** What happens when the event loop resumes task [tid].
    - A finished task is never resumed.
    - With a cancellation pending, [CancelledError] is thrown into the
      coroutine where it is suspended: before its first line if it never ran,
      otherwise at [await asyncio.sleep], where the outer [except] logs and
      re-raises.  Either way the task ends cancelled.
    - Otherwise a new task logs its start and reaches the first sleep, and a
      sleeping task whose sleep is over runs one iteration and sleeps again.
    When a sleep is over is left to the schedule, which may resume a
    sleeping task at any point. *)
Definition task_step (tid : TaskId) (st : State) : State :=
  match tasks st !! tid with
  | None => st
  | Some t =>
      match t_state t with
      | Cancelled => st
      | Created =>
          if t_must_cancel t then set_task tid (with_state Cancelled t) st
          else set_task tid (with_state Sleeping t)
                 (log_add INFO (StartingWorker (t_device_name t) (t_device_id t)) st)
      | Sleeping =>
          if t_must_cancel t then
            set_task tid (with_state Cancelled t)
              (log_add INFO (WorkerStopped (t_device_name t) (t_device_id t)) st)
          else
            worker_iteration (t_device_id t) (t_device_name t) (t_device_type t) st
      end
  end.

(** The event loop resumes the tasks of a schedule, in order. *)
Definition run (sched : list TaskId) (st : State) : State :=
  foldl (λ s tid, task_step tid s) st sched.

Definition task_done (tid : TaskId) (st : State) : bool :=
  match tasks st !! tid with
  | Some t => bool_decide (t_state t = Cancelled)
  | None => false
  end.

(** [asyncio.create_task(device_worker(...))]: a new task, not run yet. *)
Definition create_task (device_id : UUID) (device_name : string)
    (device_type : DeviceType) (st : State) : TaskId * State :=
  let tid := next_task st in
  (tid,
   {| active_workers := active_workers st;
      tasks := <[tid := mkTask device_id device_name device_type Created false]> (tasks st);
      next_task := S tid; db := db st; log := log st;
      rng := rng st; uuid4 := uuid4 st; utcnow := utcnow st |}).

(** [task.cancel()]: requests cancellation of a task that is not finished. *)
Definition cancel (tid : TaskId) (st : State) : State :=
  match tasks st !! tid with
  | Some t =>
      if bool_decide (t_state t = Cancelled) then st
      else set_task tid (with_must_cancel true t) st
  | None => st
  end.

(** [await task]: the caller is suspended until the task has finished and is
    resumed some time after.  Meanwhile the loop resumes what is ready: the
    tasks of [sched], and, the loop being fair, the awaited task at the
    latest after them.  [None] if the task has still not finished then, in
    which case the caller stays suspended. *)
Definition await_task (sched : list TaskId) (tid : TaskId) (st : State)
    : option State :=
  let st' := run (sched ++ [tid]) st in
  if task_done tid st' then Some st' else None.

Definition start_device_worker (device_id : UUID) (device_name : string)
    (device_type : DeviceType) (st : State) : bool * State :=
  match active_workers st !! device_id with
  | Some _ => (false, log_add WARNING (AlreadyRunning device_id) st)
  | None =>
      let '(task, st1) := create_task device_id device_name device_type st in
      let st2 := set_active_workers (<[device_id := task]> (active_workers st1)) st1 in
      (true, log_add INFO (StartedWorker device_name device_id) st2)
  end.

(** [stop_device_worker].  [sched] is what the loop runs while the call is
    suspended in [await task].  A finished cancelled task makes the [await]
    raise [CancelledError], which the call swallows. *)
Definition stop_device_worker (sched : list TaskId) (device_id : UUID)
    (st : State) : option (bool * State) :=
  match active_workers st !! device_id with
  | None => Some (false, log_add WARNING (NoWorkerFound device_id) st)
  | Some task =>
      match await_task sched task (cancel task st) with
      | None => None
      | Some st1 =>
          let st2 := set_active_workers (delete device_id (active_workers st1)) st1 in
          Some (true, log_add INFO (StoppedWorker device_id) st2)
      end
  end.

Definition get_active_worker_count (st : State) : nat :=
  size (active_workers st).

Definition is_worker_active (device_id : UUID) (st : State) : bool :=
  bool_decide (is_Some (active_workers st !! device_id)).



(** ** main.py: startup reconciliation in [lifespan] *)

(** A callee that may raise. *)
Definition Starter : Type :=
  UUID → string → DeviceType → State → Result bool * State.

(** [start_device_worker] as the callee: it has no [raise] of its own. *)
Definition start_device_worker_call : Starter :=
  λ device_id device_name device_type st,
    let '(b, st') := start_device_worker device_id device_name device_type st in
    (Return b, st').

(** The [for device in active_devices] loop; an exception of the callee
    leaves the loop. *)
Fixpoint restore_workers (start : Starter) (active_devices : list Device)
    (st : State) : Result unit * State :=
  match active_devices with
  | [] => (Return tt, st)
  | device :: rest =>
      match start (id device) (name device) (device_type device) st with
      | (inl e, st') => (Raise e, st')
      | (inr _, st') =>
          restore_workers start rest
            (log_add INFO (RestoredWorker (name device) (id device)) st')
      end
  end.

(** The part of [lifespan] before [yield], from [db = SessionLocal()] on:
    one [try] around the query and the whole loop, whose [except Exception]
    logs the error; the function then goes on to [yield].  [start] stands
    for the call [start_device_worker(...)]. *)
Definition lifespan_startup_with (start : Starter) (st : State) : State :=
  let st0 := log_add INFO StartingDeviceWorkers st in
  let active_devices := get_active_devices (db st0) in
  let '(r, st1) :=
    match active_devices with
    | [] => (Return tt, log_add INFO NoActiveDevices st0)
    | _ :: _ =>
        let st' := log_add INFO (FoundActiveDevices (length active_devices)) st0 in
        match restore_workers start active_devices st' with
        | (inl e, st'') => (Raise e, st'')
        | (inr _, st'') =>
            (Return tt,
             log_add INFO (SuccessfullyStarted (length active_devices)) st'')
        end
    end in
  match r with
  | inl e => log_add ERROR (StartupError e) st1
  | inr _ => st1
  end.

Definition lifespan_startup : State → State :=
  lifespan_startup_with start_device_worker_call.


(** ** Notions used by the properties *)

(** The store is also written by the other services (device creation,
    status toggle), which leave the registry alone. *)
Definition set_db (store : Db) (st : State) : State :=
  {| active_workers := active_workers st; tasks := tasks st;
     next_task := next_task st; db := store; log := log st;
     rng := rng st; uuid4 := uuid4 st; utcnow := utcnow st |}.

(** Task [tid] is a worker of device [d] that has not finished. *)
Definition live_for (d : UUID) (st : State) (tid : TaskId) : Prop :=
  ∃ t, tasks st !! tid = Some t ∧ t_device_id t = d ∧ t_state t ≠ Cancelled.


(** The transactions of device [d] in the store. *)
Definition transactions_of (d : UUID) (st : State) : gmap UUID Transaction :=
  filter (λ kv, device_id kv.2 = d) (transactions (db st)).

(** The states the registry goes through: from an empty registry, by
    lifecycle calls made one at a time, resumptions of worker tasks by the
    event loop, and writes of the rest of the process to the store and to
    the log. *)
Inductive reachable : State → Prop :=
| reach_init store g ids times :
    reachable (initial_state store g ids times)
| reach_start st d n ty :
    reachable st → reachable (start_device_worker d n ty st).2
| reach_stop st sched d b st' :
    reachable st → stop_device_worker sched d st = Some (b, st') →
    reachable st'
| reach_step st tid :
    reachable st → reachable (task_step tid st)
| reach_store st store :
    reachable st → reachable (set_db store st)
| reach_log st lvl msg :
    reachable st → reachable (log_add lvl msg st).

(** The registry invariant, with the entry of [busy] (the device a stop is
    under way for, if any) exempt from being live:
    - a task that has not finished is the registered worker of its device;
    - a registered handle is a task of the loop for that device, and, unless
      it is the busy one, not finished and with no cancellation pending;
    - handles not handed out yet are not tasks of the loop. *)
Record wf_but (busy : option UUID) (st : State) : Prop := mk_wf {
  wf_live :
    ∀ tid t, tasks st !! tid = Some t → t_state t ≠ Cancelled →
             active_workers st !! t_device_id t = Some tid;
  wf_handle :
    ∀ d tid, active_workers st !! d = Some tid →
             ∃ t, tasks st !! tid = Some t ∧ t_device_id t = d ∧
                  (busy ≠ Some d → t_state t ≠ Cancelled ∧ t_must_cancel t = false);
  wf_fresh :
    ∀ tid, is_Some (tasks st !! tid) → (tid < next_task st)%nat;
}.

Definition wf : State → Prop := wf_but None.

(** What a resumption does to the record of the resumed task. *)
Definition step_task (t : Task) : Task :=
  match t_state t with
  | Cancelled => t
  | Created =>
      if t_must_cancel t then with_state Cancelled t else with_state Sleeping t
  | Sleeping =>
      if t_must_cancel t then with_state Cancelled t else t
  end.

(** Device [d] has no worker left running. *)
Definition no_worker (d : UUID) (st : State) : Prop :=
  ∀ tid t, tasks st !! tid = Some t → t_device_id t = d → t_state t = Cancelled.

(** Task [tid] is finished or has its cancellation pending. *)
Definition doomed (tid : TaskId) (st : State) : Prop :=
  ∃ t, tasks st !! tid = Some t ∧
       (t_state t = Cancelled ∨ t_must_cancel t = true).

(** ** A sample installation

    Three devices, two of them active, and an environment to run them in. *)
Definition gate_a : Device :=
  mkDevice 1%N "Gate A" ANPR "10.0.0.1" ACTIVE 0%Z 0%Z.
Definition gate_b : Device :=
  mkDevice 2%N "Door B" ACCESS_CONTROLLER "10.0.0.2" INACTIVE 0%Z 0%Z.
Definition gate_c : Device :=
  mkDevice 3%N "Lobby C" FACE_READER "10.0.0.3" ACTIVE 0%Z 0%Z.

Definition sample_store : Db :=
  mkDb (<[1%N := gate_a]> (<[2%N := gate_b]> (<[3%N := gate_c]> ∅))) ∅.

Definition sample_state : State :=
  initial_state sample_store
    (λ i, N.of_nat (7 * i + 3)) (λ i, N.of_nat (100 + i)) (λ i, Z.of_nat i).

(** ** services/transaction_service.py: the listing *)

(** [ORDER BY timestamp DESC]: [a] may come before [b]. *)
Definition newest_first (a b : Transaction) : Prop :=
  (timestamp b ≤ timestamp a)%Z.

#[global] Instance newest_first_dec : RelDecision newest_first.
Proof. intros a b. unfold newest_first. apply _. Defined.

(** The sort of ORDER BY timestamp DESC: rows with equal timestamps keep the
    order in which they were read. *)
Fixpoint insert_newest_first (x : Transaction) (l : list Transaction)
    : list Transaction :=
  match l with
  | [] => [x]
  | y :: l' =>
      if decide (newest_first x y) then x :: l
      else y :: insert_newest_first x l'
  end.

Definition order_by_timestamp_desc (l : list Transaction) : list Transaction :=
  foldr insert_newest_first [] l.

(** The largest count the store takes in a LIMIT or OFFSET clause (a signed
    64-bit integer). *)
Definition BIGINT_MAX : N := (2 ^ 63 - 1)%N.

(** Whether the store rejects a clause. *)
Definition out_of_range (clause : option N) : bool :=
  match clause with
  | Some n => (BIGINT_MAX <? n)%N
  | None => false
  end.

(** The rows of [transactions]. *)
Definition transaction_rows (db : Db) : list Transaction :=
  snd <$> map_to_list (transactions db).

(** [get_all_transactions].  The builder calls [limit] and [offset] only
    when the argument is truthy, so [None] and [0] both leave the clause out.
    The store evaluates the query as ORDER BY, then OFFSET, then LIMIT,
    whatever the order of the builder calls, and rejects a clause above
    [BIGINT_MAX] with DataError.  ORDER BY timestamp has no tie-breaker:
    rows with equal timestamps come out in the order the store happens to
    read them for this query, which is the rearrangement [scan] of the rows
    and may differ from one query to the next.  Both arguments are counts:
    negative ones are outside [N]. *)
Definition get_all_transactions (db : Db)
    (scan : list Transaction → list Transaction)
    (limit : option N) (offset : N) : Result (list Transaction) :=
  let limit_clause :=
    match limit with
    | Some n => if (n =? 0)%N then None else Some n
    | None => None
    end in
  let offset_clause := if (offset =? 0)%N then None else Some offset in
  if out_of_range limit_clause || out_of_range offset_clause
  then Raise DataError
  else
    let ordered := order_by_timestamp_desc (scan (transaction_rows db)) in
    let skipped :=
      match offset_clause with
      | Some k => drop (N.to_nat k) ordered
      | None => ordered
      end in
    Return (match limit_clause with
            | Some n => take (N.to_nat n) skipped
            | None => skipped
            end).

(** ** main.py: the device endpoints *)

(** What an [except Exception as e] clause of an endpoint caught: an
    exception of a service, or the 404 the endpoint raised itself
    ([HTTPException] is an [Exception]). *)
Inductive Caught :=
| CaughtException (e : Exception)
| CaughtNotFound (device : UUID).

(** The [detail] of an [HTTPException], by call site. *)
Inductive Detail :=
| DeviceNotFound (device : UUID)
| StrOf (e : Exception)
| ErrorCreatingDevice (e : Exception)
| ErrorTogglingStatus (c : Caught).

Record HTTPException := mkHTTPException {
  status_code : nat;
  detail : Detail;
}.

(** An endpoint raises an [HTTPException] or returns its response model. *)
Definition Response (A : Type) : Type := HTTPException + A.

(** The state after a request that wrote to the store and drew from the
    environment. *)
Definition with_store (store : Db) (ids : Supply UUID) (times : Supply Time)
    (st : State) : State :=
  {| active_workers := active_workers st; tasks := tasks st;
     next_task := next_task st; db := store; log := log st;
     rng := rng st; uuid4 := ids; utcnow := times |}.

(** [POST /devices/create].  The column defaults are drawn when the row is
    flushed, which a rejected [device_type] never reaches.  [ValueError] is
    answered with 400, any other exception with 500. *)
Definition create_device_endpoint (str_upper : string → string)
    (device_data : DeviceCreate) (st : State) : Response Device * State :=
  match create_device str_upper (db st) device_data
          (supply_head (uuid4 st)) (supply_head (utcnow st)) with
  | (inr device, store) =>
      (inr device,
       with_store store (supply_tail (uuid4 st)) (supply_tail (utcnow st)) st)
  | (inl (ValueError msg), _) =>
      (inl (mkHTTPException 400 (StrOf (ValueError msg))), st)
  | (inl e, _) =>
      (inl (mkHTTPException 500 (ErrorCreatingDevice e)),
       with_store (db st) (supply_tail (uuid4 st)) (supply_tail (utcnow st)) st)
  end.

(** [PUT /devices/{device_id}].  The 404 for a missing device is raised
    inside the [try] and so is caught by its [except Exception], which raises
    500 in its place.  For a device that is found, the status is toggled in
    the store and the worker is started or stopped after the new status;
    [sched] is what the event loop runs while a stop is suspended. *)
Definition toggle_device_status_endpoint (sched : list TaskId)
    (device_id : UUID) (st : State) : option (Response Device * State) :=
  match toggle_device_status (db st) device_id (supply_head (utcnow st)) with
  | (None, _) =>
      Some (inl (mkHTTPException 500
                   (ErrorTogglingStatus (CaughtNotFound device_id))), st)
  | (Some device, store) =>
      let st1 := with_store store (uuid4 st) (supply_tail (utcnow st)) st in
      if decide (status device = ACTIVE) then
        let '(_, st2) :=
          start_device_worker (id device) (name device) (device_type device) st1 in
        Some (inr device, st2)
      else
        match stop_device_worker sched (id device) st1 with
        | None => None
        | Some (_, st2) => Some (inr device, st2)
        end
  end.

(** ** Further notions used by the properties *)

(** Every row of [devices] is stored under its own [id]. *)
Definition db_keyed (store : Db) : Prop :=
  ∀ k dev, devices store !! k = Some dev → id dev = k.

(** The foreign key of [transactions]: every row refers to a device. *)
Definition fk_ok (store : Db) : Prop :=
  ∀ k txn, transactions store !! k = Some txn →
           is_Some (devices store !! device_id txn).

(** Worker presence mirrors the activation status: a device has a registered
    worker exactly when its row is ACTIVE. *)
Definition in_sync (st : State) : Prop :=
  ∀ d, is_Some (active_workers st !! d) ↔
       ∃ dev, devices (db st) !! d = Some dev ∧ status dev = ACTIVE.

(** The tasks of the loop that have not finished. *)
Definition live_tasks (st : State) : gmap TaskId Task :=
  filter (λ kv, t_state kv.2 ≠ Cancelled) (tasks st).

(** The states of a running application: startup on a store, then requests
    to the two device endpoints, served one at a time, and resumptions of
    worker tasks. *)
Inductive api_reachable (str_upper : string → string) : State → Prop :=
| api_startup store g ids times :
    db_keyed store →
    api_reachable str_upper (lifespan_startup (initial_state store g ids times))
| api_create st device_data :
    api_reachable str_upper st →
    api_reachable str_upper (create_device_endpoint str_upper device_data st).2
| api_toggle st sched d r st' :
    api_reachable str_upper st →
    toggle_device_status_endpoint sched d st = Some (r, st') →
    api_reachable str_upper st'
| api_step st tid :
    api_reachable str_upper st → api_reachable str_upper (task_step tid st).

(** [[1-9][0-9]{3}]: how a number from 1000 to 9999 prints. *)
Definition four_digits : list CharClass :=
  Range "1" "9" :: replicate 3 (Range "0" "9").

(** [[1-9][0-9]{3}-[1-9][0-9]{3}] *)
Definition card_pattern : list CharClass :=
  four_digits ++ [Lit "-"] ++ four_digits.

(** [FACE-[1-9][0-9]{3}] *)
Definition face_pattern : list CharClass :=
  [Lit "F"; Lit "A"; Lit "C"; Lit "E"; Lit "-"] ++ four_digits.

#[global] Instance newest_first_total : Total newest_first.
Proof. intros a b. unfold newest_first. lia. Qed.

#[global] Instance newest_first_trans : Transitive newest_first.
Proof. intros a b c. unfold newest_first. lia. Qed.

(** The whole listing of one query, before OFFSET and LIMIT. *)
Definition all_rows (store : Db) (scan : list Transaction → list Transaction)
    : list Transaction :=
  order_by_timestamp_desc (scan (transaction_rows store)).

(** No two transactions of the store have the same timestamp. *)
Definition distinct_timestamps (store : Db) : Prop :=
  NoDup (timestamp <$> transaction_rows store).

(** The sample installation after its two active devices were started and
    each worker emitted twice. *)
Definition sample_busy_state : State :=
  run [0; 1; 0; 1; 1; 0]%nat
    (start_device_worker 3%N "Lobby C" FACE_READER
       (start_device_worker 1%N "Gate A" ANPR sample_state).2).2.

(** The invariant of a running application. *)
Definition api_inv (st : State) : Prop :=
  wf st ∧ db_keyed (db st) ∧ in_sync st.

(** Every task of device [d] is finished or has its cancellation pending:
    none of them will emit again. *)
Definition quiet (d : UUID) (st : State) : Prop :=
  ∀ tid t, tasks st !! tid = Some t → t_device_id t = d →
           t_state t = Cancelled ∨ t_must_cancel t = true.

(** * Properties *)

(** ** The store services *)

Section StoreServices.
Implicit Types (store : Db) (now : Time).

Lemma toggled_involutive s : toggled (toggled s) = s.
Proof. by destruct s. Qed.

Lemma toggled_flips s : toggled s ≠ s.
Proof. by destruct s. Qed.

Lemma toggle_found store d dev now :
  devices store !! d = Some dev →
  ∃ dev', toggle_device_status store d now
            = (Some dev',
               {| devices := <[d := dev']> (devices store);
                  transactions := transactions store |})
          ∧ status dev' = toggled (status dev) ∧ id dev' = id dev.
Proof.
  intros Hd. unfold toggle_device_status, get_device_by_id. rewrite Hd.
  eexists. split; [reflexivity|]. by simpl.
Qed.
Lemma create_device_valid str_upper store data ty new_id now :
  DeviceType_getitem (str_upper (dc_device_type data)) = Some ty →
  devices store !! new_id = None →
  ∃ dev store',
    create_device str_upper store data new_id now = (Return dev, store')
    ∧ device_type dev = ty ∧ status dev = INACTIVE.
Proof.
  intros Hty Hfree. unfold create_device. rewrite Hty, Hfree.
  eexists _, _. by split_and!.
Qed.

(** The category is matched by member name after [upper()]. *)
Example create_device_mixed_case :
  (create_device ascii_upper empty_db
     (mkDeviceCreate "Gate" "Face_Reader" "10.0.0.9") 4%N 0%Z).1
  = Return (mkDevice 4%N "Gate" FACE_READER "10.0.0.9" INACTIVE 0%Z 0%Z).
Proof. reflexivity. Qed.

Example create_device_unknown_type :
  create_device ascii_upper empty_db
    (mkDeviceCreate "Gate" "camera" "10.0.0.9") 4%N 0%Z
  = (Raise (ValueError
              (InvalidDeviceType ["access_controller"; "face_reader"; "anpr"])),
     empty_db).
Proof. reflexivity. Qed.
End StoreServices.

(** C7. The transaction emitter, called with a device id that is absent from
    the store, raises the not-found error ([ValueError], "Device with id ...
    does not exist"), and the store it leaves is the store it was given: no
    row is inserted. *)
Theorem create_transaction_absent_device store data new_id now :
  devices store !! tc_device_id data = None →
  create_transaction store data new_id now
    = (Raise (ValueError (DeviceDoesNotExist (tc_device_id data))), store)
  ∧ transactions (create_transaction store data new_id now).2 = transactions store.
Proof.
  intros Habsent. unfold create_transaction. by rewrite Habsent.
Qed.

Lemma create_transaction_absent_device_witness :
  create_transaction empty_db (mkTransactionCreate "john.doe" "plate_read" None 7%N) 1%N 0%Z
    = (Raise (ValueError (DeviceDoesNotExist 7%N)), empty_db)
  ∧ transactions
      (create_transaction empty_db
         (mkTransactionCreate "john.doe" "plate_read" None 7%N) 1%N 0%Z).2
    = transactions empty_db.
Proof.
  apply (create_transaction_absent_device empty_db
           (mkTransactionCreate "john.doe" "plate_read" None 7%N) 1%N 0%Z).
  reflexivity.
Defined.

(** C9. Whatever the caller sends, a device that [create_device] creates has
    status INACTIVE: the returned device and the row stored under its id both
    do, and every other row of the table is as before.  ([DeviceCreate] has
    no status field to send.) *)
Theorem create_device_is_inactive str_upper store data new_id now dev store' :
  create_device str_upper store data new_id now = (Return dev, store') →
  status dev = INACTIVE
  ∧ devices store' !! new_id = Some dev
  ∧ id dev = new_id
  ∧ ∀ k, k ≠ new_id → devices store' !! k = devices store !! k.
Proof.
  unfold create_device.
  destruct (DeviceType_getitem _) as [ty|]; [|by inversion 1].
  destruct (devices store !! new_id) eqn:Hfree; [by inversion 1|].
  inversion 1; subst; simpl. split_and!; [done| |done|].
  - apply lookup_insert_eq.
  - intros k Hk. by rewrite lookup_insert_ne.
Qed.

Lemma create_device_is_inactive_witness :
  let data := mkDeviceCreate "Gate 1" "anpr" "10.0.0.7" in
  ∃ dev store',
    create_device ascii_upper empty_db data 5%N 100%Z = (Return dev, store')
    ∧ status dev = INACTIVE
    ∧ devices store' !! 5%N = Some dev.
Proof.
  intros data.
  destruct (create_device ascii_upper empty_db data 5%N 100%Z)
    as [r store'] eqn:Hrun.
  vm_compute in Hrun.
  destruct r as [e|dev]; [discriminate Hrun|].
  exists dev, store'.
  pose proof (create_device_is_inactive ascii_upper empty_db data 5%N 100%Z
                dev store') as Hspec.
  assert (Hcall : create_device ascii_upper empty_db data 5%N 100%Z
                  = (Return dev, store')).
  { vm_compute. exact Hrun. }
  destruct (Hspec Hcall) as (Hs & Hrow & _ & _).
  split; [reflexivity|]. split; [exact Hs|exact Hrow].
Defined.

(** C10. For a device of the store, one toggle turns ACTIVE into INACTIVE
    and INACTIVE into ACTIVE, in the returned device and in its row, and a
    second toggle gives back the status the device had at first. *)
Theorem toggle_device_status_involution store d dev t1 t2 :
  devices store !! d = Some dev →
  ∃ dev1 store1 dev2 store2,
    toggle_device_status store d t1 = (Some dev1, store1)
    ∧ toggle_device_status store1 d t2 = (Some dev2, store2)
    ∧ devices store1 !! d = Some dev1
    ∧ devices store2 !! d = Some dev2
    ∧ (status dev = ACTIVE → status dev1 = INACTIVE)
    ∧ (status dev = INACTIVE → status dev1 = ACTIVE)
    ∧ status dev2 = status dev.
Proof.
  intros Hd.
  destruct (toggle_found store d dev t1 Hd) as (dev1 & Hrun1 & Hs1 & _).
  set (store1 := {| devices := <[d := dev1]> (devices store);
                    transactions := transactions store |}) in *.
  assert (Hd1 : devices store1 !! d = Some dev1) by apply lookup_insert_eq.
  destruct (toggle_found store1 d dev1 t2 Hd1) as (dev2 & Hrun2 & Hs2 & _).
  eexists dev1, store1, dev2, _.
  split_and!; [exact Hrun1|exact Hrun2|exact Hd1|apply lookup_insert_eq| | |].
  - intros Ha. by rewrite Hs1, Ha.
  - intros Hi. by rewrite Hs1, Hi.
  - by rewrite Hs2, Hs1, toggled_involutive.
Qed.

Lemma toggle_device_status_involution_witness :
  let dev := mkDevice 5%N "Gate 1" ANPR "10.0.0.7" INACTIVE 100%Z 100%Z in
  let store := mkDb {[5%N := dev]} ∅ in
  devices store !! 5%N = Some dev
  ∧ ∃ dev1 store1 dev2 store2,
      toggle_device_status store 5%N 101%Z = (Some dev1, store1)
      ∧ toggle_device_status store1 5%N 102%Z = (Some dev2, store2)
      ∧ devices store1 !! 5%N = Some dev1
      ∧ devices store2 !! 5%N = Some dev2
      ∧ (status dev = ACTIVE → status dev1 = INACTIVE)
      ∧ (status dev = INACTIVE → status dev1 = ACTIVE)
      ∧ status dev2 = status dev.
Proof.
  intros dev store.
  assert (Hd : devices store !! 5%N = Some dev) by reflexivity.
  split; [exact Hd|].
  exact (toggle_device_status_involution store 5%N dev 101%Z 102%Z Hd).
Defined.

(** ** The random picks *)

Section RandomSource.
Context {A : Type}.
Implicit Types (g : Rng) (seq : list A).

Lemma randbelow_lt n g : n ≠ 0%N → ((randbelow n g).1 < n)%N.
Proof. intros Hn. unfold randbelow. cbn [fst]. by apply N.mod_lt. Qed.

Lemma randint_range a b g :
  (a ≤ b)%Z → (a ≤ (randint a b g).1 ≤ b)%Z.
Proof.
  intros Hab. unfold randint, rand_bind, rand_ret, randbelow. cbn [fst].
  pose proof (N.mod_lt (supply_head g) (Z.to_N (b - a + 1))) as Hlt.
  set (n := Z.to_N (b - a + 1)) in *.
  assert (Hn : Z.of_N n = (b - a + 1)%Z) by lia.
  set (k := (supply_head g mod n)%N) in *. clearbody k n. lia.
Qed.

Lemma choice_elem dflt seq g : seq ≠ [] → (choice dflt seq g).1 ∈ seq.
Proof.
  intros Hne. unfold choice, rand_bind, rand_ret, randbelow. cbn [fst].
  apply list_elem_of_In, nth_In.
  assert (length seq ≠ 0)%nat by (destruct seq; simpl; congruence).
  pose proof (N.mod_lt (supply_head g) (N.of_nat (length seq))) as Hlt.
  set (k := (supply_head g mod _)%N) in *. clearbody k. lia.
Qed.

Lemma choices_spec dflt seq k g :
  seq ≠ [] →
  length (choices dflt seq k g).1 = k
  ∧ Forall (λ x, x ∈ seq) (choices dflt seq k g).1.
Proof.
  intros Hne. revert g. induction k as [|k IH]; intros g.
  - by split; [|constructor].
  - cbn [choices]. unfold rand_bind, rand_ret.
    destruct (choice dflt seq g) as [x g1] eqn:Hx.
    destruct (IH g1) as [Hlen Hall].
    destruct (choices dflt seq k g1) as [xs g2]. simpl in *.
    split; [by rewrite Hlen|]. constructor; [|done].
    pose proof (choice_elem dflt seq g Hne) as Hin. by rewrite Hx in Hin.
Qed.
End RandomSource.

(** ** The event content producer *)

Section Payload.

Lemma plate_chars_upper c :
  c ∈ list_ascii_of_string plate_chars → in_class (Range "A" "Z") c = true.
Proof.
  revert c. apply Forall_forall. vm_compute. repeat constructor.
Qed.

Lemma plate_nums_digit c :
  c ∈ list_ascii_of_string plate_nums → in_class (Range "0" "9") c = true.
Proof.
  revert c. apply Forall_forall. vm_compute. repeat constructor.
Qed.

Lemma plate_format (letters digits : list ascii) :
  length letters = 3%nat → length digits = 4%nat →
  Forall (λ c, c ∈ list_ascii_of_string plate_chars) letters →
  Forall (λ c, c ∈ list_ascii_of_string plate_nums) digits →
  fullmatch plate_pattern (join letters +:+ "-" +:+ join digits) = true.
Proof.
  intros Hl Hd Hls Hds.
  destruct letters as [|l1 [|l2 [|l3 [|]]]]; try discriminate Hl.
  destruct digits as [|d1 [|d2 [|d3 [|d4 [|]]]]]; try discriminate Hd.
  repeat match goal with
         | H : Forall _ (_ :: _) |- _ => apply Forall_cons in H as [? H]
         end.
  cbv [join string_of_list_ascii String.append]. cbn -[in_class].
  rewrite !plate_chars_upper, !plate_nums_digit by done.
  reflexivity.
Qed.

Lemma camera_format (cam : Z) :
  (1 ≤ cam ≤ 5)%Z → fullmatch camera_pattern ("CAM-" +:+ str_int cam) = true.
Proof.
  intros Hc.
  assert (cam = 1 ∨ cam = 2 ∨ cam = 3 ∨ cam = 4 ∨ cam = 5)%Z
    as [->|[->|[->|[->| ->]]]] by lia; by vm_compute.
Qed.

(** The payload for category ANPR, with what is known of its parts. *)
Lemma anpr_payload_shape ev g :
  ∃ conf ms letters digits cam vehicle,
    (generate_transaction_payload ANPR ev g).1
      = <["vehicle_type" := JStr vehicle]>
          (<["camera_id" := JStr ("CAM-" +:+ str_int cam)]>
             (<["plate_number" := JStr (join letters +:+ "-" +:+ join digits)]>
                (<["processing_time_ms" := JInt ms]>
                   (<["confidence" := JCenti conf]> ∅))))
    ∧ length letters = 3%nat ∧ length digits = 4%nat
    ∧ Forall (λ c, c ∈ list_ascii_of_string plate_chars) letters
    ∧ Forall (λ c, c ∈ list_ascii_of_string plate_nums) digits
    ∧ (1 ≤ cam ≤ 5)%Z
    ∧ vehicle ∈ vehicle_types.
Proof.
  unfold generate_transaction_payload.
  unfold rand_bind at 1. destruct (uniform_round2 75 99 g) as [conf g1].
  unfold rand_bind at 1. destruct (randint 50 500 g1) as [ms g2].
  unfold rand_bind at 1.
  pose proof (choices_spec "A"%char (list_ascii_of_string plate_chars) 3 g2)
    as [Hl1 Hl2]; [done|].
  destruct (choices "A"%char _ 3 g2) as [letters g3].
  unfold rand_bind at 1.
  pose proof (choices_spec "0"%char (list_ascii_of_string plate_nums) 4 g3)
    as [Hd1 Hd2]; [done|].
  destruct (choices "0"%char _ 4 g3) as [digits g4].
  unfold rand_bind at 1.
  pose proof (randint_range 1 5 g4) as Hcam.
  destruct (randint 1 5 g4) as [cam g5].
  unfold rand_bind at 1.
  pose proof (choice_elem "car" ["car"; "truck"; "motorcycle"; "van"] g5) as Hv.
  destruct (choice "car" _ g5) as [vehicle g6].
  exists conf, ms, letters, digits, cam, vehicle.
  cbn [fst] in *. assert (1 ≤ cam ≤ 5)%Z as [? ?] by (apply Hcam; lia).
  split_and!; [reflexivity|done|done|done|done|done|done|by apply Hv].
Qed.
Example anpr_payload_sample :
  (generate_transaction_payload ANPR "plate_read" (rng sample_state)).1
    !! "plate_number" = Some (JStr "RYF-8529")
  ∧ (generate_transaction_payload ANPR "plate_read" (rng sample_state)).1
    !! "camera_id" = Some (JStr "CAM-2")
  ∧ (generate_transaction_payload ANPR "plate_read" (rng sample_state)).1
    !! "vehicle_type" = Some (JStr "truck").
Proof. by vm_compute. Qed.
End Payload.

(** C8. For category ANPR the payload has a plate number that matches
    [[A-Z]{3}-[0-9]{4}], a camera id that matches [CAM-[1-5]] and a vehicle
    type among car, truck, motorcycle and van, whatever the event label and
    whatever the random source yields. *)
Theorem anpr_payload_format ev g :
  ∃ plate camera vehicle,
    (generate_transaction_payload ANPR ev g).1 !! "plate_number" = Some (JStr plate)
    ∧ fullmatch plate_pattern plate = true
    ∧ (generate_transaction_payload ANPR ev g).1 !! "camera_id" = Some (JStr camera)
    ∧ fullmatch camera_pattern camera = true
    ∧ (generate_transaction_payload ANPR ev g).1 !! "vehicle_type" = Some (JStr vehicle)
    ∧ vehicle ∈ vehicle_types.
Proof.
  destruct (anpr_payload_shape ev g)
    as (conf & ms & letters & digits & cam & vehicle & -> & Hl & Hd & Hls & Hds & Hc & Hv).
  exists (join letters +:+ "-" +:+ join digits), ("CAM-" +:+ str_int cam), vehicle.
  split_and!.
  - do 2 (rewrite lookup_insert_ne by done). apply lookup_insert_eq.
  - by apply plate_format.
  - rewrite lookup_insert_ne by done. apply lookup_insert_eq.
  - by apply camera_format.
  - apply lookup_insert_eq.
  - done.
Qed.

(** ** The worker registry: frame lemmas *)

Section Frames.
Implicit Types (st : State) (tid : TaskId) (d : UUID).

Lemma create_transaction_cases store data new_id now :
  devices (create_transaction store data new_id now).2 = devices store
  ∧ ((∃ e, (create_transaction store data new_id now).1 = inl e
           ∧ (create_transaction store data new_id now).2 = store)
     ∨ (∃ txn, (create_transaction store data new_id now).1 = inr txn
               ∧ device_id txn = tc_device_id data
               ∧ transactions store !! new_id = None
               ∧ transactions (create_transaction store data new_id now).2
                 = <[new_id := txn]> (transactions store))).
Proof.
  unfold create_transaction.
  destruct (devices store !! tc_device_id data); [|split; [done|left; eauto]].
  destruct (transactions store !! new_id) eqn:Hk; [split; [done|left; eauto]|].
  split; [done|]. right. eexists. by split_and!.
Qed.

(** The emission touches the store and the supplies, nothing else. *)
Lemma emit_transaction_frame d ty st :
  active_workers (emit_transaction d ty st).2 = active_workers st
  ∧ tasks (emit_transaction d ty st).2 = tasks st
  ∧ next_task (emit_transaction d ty st).2 = next_task st
  ∧ log (emit_transaction d ty st).2 = log st.
Proof.
  unfold emit_transaction.
  destruct (choice _ _ _) as [u g1]. destruct (choice _ _ _) as [ev g2].
  destruct (generate_transaction_payload _ _ _) as [pl g3].
  by destruct (create_transaction _ _ _ _).
Qed.

Lemma emit_transaction_store d ty st :
  ∃ data,
    tc_device_id data = d
    ∧ (emit_transaction d ty st).1
      = (create_transaction (db st) data (supply_head (uuid4 st))
           (supply_head (utcnow st))).1
    ∧ db (emit_transaction d ty st).2
      = (create_transaction (db st) data (supply_head (uuid4 st))
           (supply_head (utcnow st))).2.
Proof.
  unfold emit_transaction.
  destruct (choice _ _ _) as [u g1]. destruct (choice _ _ _) as [ev g2].
  destruct (generate_transaction_payload _ _ _) as [pl g3].
  exists {| tc_device_id := d; tc_username := u; tc_event_type := ev;
            tc_payload := Some pl |}.
  split; [reflexivity|]. by destruct (create_transaction _ _ _ _).
Qed.

Lemma emit_transaction_other d d' ty st :
  d ≠ d' →
  transactions_of d' (emit_transaction d ty st).2 = transactions_of d' st.
Proof.
  intros Hne. unfold transactions_of.
  destruct (emit_transaction_store d ty st) as (data & Hd & _ & ->).
  destruct (create_transaction_cases (db st) data (supply_head (uuid4 st))
              (supply_head (utcnow st))) as [_ [(e & _ & ->)|(txn & _ & Hdev & Hk & ->)]];
    [done|].
  apply map_filter_insert_not'; simpl.
  - congruence.
  - intros y Hy. congruence.
Qed.

Lemma worker_iteration_frame d n ty st :
  active_workers (worker_iteration d n ty st) = active_workers st
  ∧ tasks (worker_iteration d n ty st) = tasks st
  ∧ next_task (worker_iteration d n ty st) = next_task st.
Proof.
  unfold worker_iteration.
  pose proof (emit_transaction_frame d ty st) as (Ha & Ht & Hn & _).
  by destruct (emit_transaction d ty st) as [[e|txn] st'].
Qed.

Lemma worker_iteration_other d d' n ty st :
  d ≠ d' →
  transactions_of d' (worker_iteration d n ty st) = transactions_of d' st.
Proof.
  intros Hne. unfold worker_iteration.
  pose proof (emit_transaction_other d d' ty st Hne) as Hemit.
  by destruct (emit_transaction d ty st) as [[e|txn] st'].
Qed.

Lemma task_step_active_workers tid st :
  active_workers (task_step tid st) = active_workers st.
Proof.
  unfold task_step. destruct (tasks st !! tid) as [t|]; [|done].
  destruct (t_state t), (t_must_cancel t); try done.
  apply worker_iteration_frame.
Qed.

Lemma task_step_next_task tid st :
  next_task (task_step tid st) = next_task st.
Proof.
  unfold task_step. destruct (tasks st !! tid) as [t|]; [|done].
  destruct (t_state t), (t_must_cancel t); try done.
  apply worker_iteration_frame.
Qed.

Lemma task_step_tasks tid st :
  tasks (task_step tid st) = alter step_task tid (tasks st).
Proof.
  unfold task_step. destruct (tasks st !! tid) as [t|] eqn:Ht.
  - assert (Hins : ∀ t', step_task t = t' →
              <[tid := t']> (tasks st) = alter step_task tid (tasks st)).
    { intros t' <-. apply map_eq. intros k.
      destruct (decide (k = tid)) as [->|Hk].
      - by rewrite lookup_insert_eq, lookup_alter_eq, Ht.
      - by rewrite lookup_insert_ne, lookup_alter_ne. }
    assert (Hid : step_task t = t → tasks st = alter step_task tid (tasks st)).
    { intros Hfix. rewrite <- (Hins t Hfix). symmetry. by apply insert_id. }
    unfold step_task in *.
    destruct (t_state t) eqn:Hs, (t_must_cancel t) eqn:Hc; simpl;
      try (by apply Hins); try (by apply Hid).
    destruct (worker_iteration_frame (t_device_id t) (t_device_name t)
                (t_device_type t) st) as (_ & Hw & _).
    rewrite Hw. by apply Hid.
  - apply map_eq. intros k. destruct (decide (k = tid)) as [->|Hk].
    + by rewrite lookup_alter_eq, Ht.
    + by rewrite lookup_alter_ne.
Qed.

Lemma step_task_device t : t_device_id (step_task t) = t_device_id t.
Proof. unfold step_task. by destruct (t_state t), (t_must_cancel t). Qed.

Lemma step_task_must_cancel t : t_must_cancel (step_task t) = t_must_cancel t.
Proof.
  unfold step_task.
  by destruct (t_state t), (t_must_cancel t) eqn:Hc; simpl; rewrite ?Hc.
Qed.

Lemma step_task_cancelled t :
  t_state (step_task t) = Cancelled ↔
  t_state t = Cancelled ∨ t_must_cancel t = true.
Proof.
  unfold step_task.
  destruct (t_state t) eqn:Hs, (t_must_cancel t) eqn:Hc; simpl;
    rewrite ?Hs; intuition congruence.
Qed.

Lemma run_cons tid sched st : run (tid :: sched) st = run sched (task_step tid st).
Proof. reflexivity. Qed.

Lemma run_active_workers sched st :
  active_workers (run sched st) = active_workers st.
Proof.
  revert st. induction sched as [|tid sched IH]; intros st; [done|].
  by rewrite run_cons, IH, task_step_active_workers.
Qed.
End Frames.

(** ** The worker registry: the invariant *)

Section Invariant.
Implicit Types (st : State) (tid h : TaskId) (d : UUID).

Lemma wf_but_ext busy st st' :
  active_workers st' = active_workers st → tasks st' = tasks st →
  next_task st' = next_task st → wf_but busy st → wf_but busy st'.
Proof.
  intros Ha Ht Hn [H1 H2 H3]. split; rewrite ?Ha, ?Ht, ?Hn; assumption.
Qed.

Lemma wf_initial store g ids times : wf (initial_state store g ids times).
Proof.
  split; simpl.
  - intros tid t Ht. by rewrite lookup_empty in Ht.
  - intros d tid Hd. by rewrite lookup_empty in Hd.
  - intros tid [t Ht]. by rewrite lookup_empty in Ht.
Qed.

Lemma wf_but_task_step busy tid st :
  wf_but busy st → wf_but busy (task_step tid st).
Proof.
  intros [H1 H2 H3].
  split; rewrite ?task_step_active_workers, ?task_step_tasks, ?task_step_next_task.
  - intros tid' t' Ht' Hlive.
    destruct (decide (tid' = tid)) as [->|Hne].
    + rewrite lookup_alter_eq in Ht'.
      destruct (tasks st !! tid) as [t|] eqn:Ht; simplify_eq/=.
      rewrite step_task_device. apply H1; [done|].
      intros Hc. apply Hlive, step_task_cancelled. by left.
    + rewrite lookup_alter_ne in Ht' by done. by apply H1.
  - intros d h Hh. destruct (H2 d h Hh) as (t & Ht & Hd & Hl).
    destruct (decide (h = tid)) as [->|Hne].
    + exists (step_task t). rewrite lookup_alter_eq, Ht.
      split; [done|]. split; [by rewrite step_task_device|].
      intros Hb. destruct (Hl Hb) as [Hs Hc].
      rewrite step_task_must_cancel. split; [|done].
      rewrite step_task_cancelled. intros [?|?]; congruence.
    + exists t. by rewrite lookup_alter_ne.
  - intros tid' Hsome. apply H3. by rewrite lookup_alter_is_Some in Hsome.
Qed.

Lemma wf_but_run busy sched st : wf_but busy st → wf_but busy (run sched st).
Proof.
  revert st. induction sched as [|tid sched IH]; intros st Hwf; [done|].
  rewrite run_cons. by apply IH, wf_but_task_step.
Qed.

Lemma wf_start d n ty st : wf st → wf (start_device_worker d n ty st).2.
Proof.
  intros [H1 H2 H3]. unfold start_device_worker.
  destruct (active_workers st !! d) as [h|] eqn:Hd; simpl; [by split|].
  split; simpl.
  - intros tid t Ht Hlive. destruct (decide (tid = next_task st)) as [->|Hne].
    + rewrite lookup_insert_eq in Ht. simplify_eq/=. apply lookup_insert_eq.
    + rewrite lookup_insert_ne in Ht by done.
      specialize (H1 _ _ Ht Hlive).
      destruct (decide (t_device_id t = d)) as [Heq|Hneq].
      * rewrite Heq, Hd in H1. done.
      * by rewrite lookup_insert_ne.
  - intros d' h Hh. destruct (decide (d' = d)) as [->|Hne].
    + rewrite lookup_insert_eq in Hh. simplify_eq.
      eexists. rewrite lookup_insert_eq. by split_and!.
    + rewrite lookup_insert_ne in Hh by done.
      destruct (H2 _ _ Hh) as (t & Ht & ? & ?).
      exists t. rewrite lookup_insert_ne; [done|].
      intros <-. assert (next_task st < next_task st)%nat; [|lia].
      apply H3. by exists t.
  - intros tid [t Ht]. destruct (decide (tid = next_task st)) as [->|Hne]; [lia|].
    rewrite lookup_insert_ne in Ht by done.
    assert (tid < next_task st)%nat; [|lia]. apply H3. by exists t.
Qed.

Lemma wf_cancel d h st :
  wf st → active_workers st !! d = Some h →
  wf_but (Some d) (cancel h st) ∧ doomed h (cancel h st)
  ∧ active_workers (cancel h st) = active_workers st.
Proof.
  intros [H1 H2 H3] Hd.
  destruct (H2 d h Hd) as (t & Ht & Hdev & Hlive).
  destruct Hlive as [Hs Hc]; [done|].
  unfold cancel. rewrite Ht, bool_decide_eq_false_2 by done.
  split_and!; [split; simpl| |done].
  - intros tid t' Ht' Hl. destruct (decide (tid = h)) as [->|Hne].
    + rewrite lookup_insert_eq in Ht'. simplify_eq/=. by apply H1.
    + rewrite lookup_insert_ne in Ht' by done. by apply H1.
  - intros d' h' Hh'. destruct (H2 d' h' Hh') as (t' & Ht' & Hdev' & Hl').
    destruct (decide (h' = h)) as [->|Hne].
    + exists (with_must_cancel true t). rewrite lookup_insert_eq.
      assert (t' = t) as -> by congruence.
      split; [done|]. split; [exact Hdev'|].
      intros Hb. exfalso. apply Hb. congruence.
    + exists t'. rewrite lookup_insert_ne by done. auto.
  - intros tid [t' Ht']. apply H3. destruct (decide (tid = h)) as [->|Hne].
    + by exists t.
    + rewrite lookup_insert_ne in Ht' by done. by exists t'.
  - exists (with_must_cancel true t). simpl. rewrite lookup_insert_eq. auto.
Qed.

Lemma doomed_task_step h tid st : doomed h st → doomed h (task_step tid st).
Proof.
  intros (t & Ht & Hdoom). unfold doomed. rewrite task_step_tasks.
  destruct (decide (h = tid)) as [->|Hne].
  - exists (step_task t). rewrite lookup_alter_eq, Ht. split; [done|].
    left. by apply step_task_cancelled.
  - exists t. by rewrite lookup_alter_ne.
Qed.

Lemma doomed_step_done h st : doomed h st → task_done h (task_step h st) = true.
Proof.
  intros (t & Ht & Hdoom). unfold task_done.
  rewrite task_step_tasks, lookup_alter_eq, Ht. simpl.
  by apply bool_decide_eq_true_2, step_task_cancelled.
Qed.

Lemma doomed_run h sched st : doomed h st → doomed h (run sched st).
Proof.
  revert st. induction sched as [|tid sched IH]; intros st Hdoom; [done|].
  rewrite run_cons. by apply IH, doomed_task_step.
Qed.

Lemma run_snoc sched tid st :
  run (sched ++ [tid]) st = task_step tid (run sched st).
Proof. unfold run. by rewrite foldl_app. Qed.

(** A task whose cancellation is pending is finished once the loop has run
    what is ahead of it and then the task: the [await] returns. *)
Lemma await_task_doomed busy sched h st :
  doomed h st → wf_but busy st →
  ∃ st', await_task sched h st = Some st'
         ∧ task_done h st' = true
         ∧ wf_but busy st'
         ∧ active_workers st' = active_workers st.
Proof.
  intros Hdoom Hwf. unfold await_task. rewrite run_snoc.
  assert (Hdone : task_done h (task_step h (run sched st)) = true)
    by by apply doomed_step_done, doomed_run.
  rewrite Hdone. eexists. split_and!; [done|done| |].
  - by apply wf_but_task_step, wf_but_run.
  - by rewrite task_step_active_workers, run_active_workers.
Qed.

Lemma wf_no_worker d st :
  wf st → active_workers st !! d = None → no_worker d st.
Proof.
  intros [H1 _ _] Hd tid t Ht Hdev.
  destruct (decide (t_state t = Cancelled)) as [|Hlive]; [done|].
  specialize (H1 _ _ Ht Hlive). congruence.
Qed.

Lemma stop_device_worker_unregistered sched d st :
  active_workers st !! d = None →
  stop_device_worker sched d st
    = Some (false, log_add WARNING (NoWorkerFound d) st).
Proof. intros Hd. unfold stop_device_worker. by rewrite Hd. Qed.

Lemma stop_device_worker_registered sched d h st :
  wf st → active_workers st !! d = Some h →
  ∃ st', stop_device_worker sched d st = Some (true, st')
         ∧ wf st'
         ∧ active_workers st' = delete d (active_workers st)
         ∧ task_done h st' = true.
Proof.
  intros Hwf Hd. unfold stop_device_worker. rewrite Hd.
  destruct (wf_cancel d h st Hwf Hd) as (Hwf1 & Hdoom & Ha1).
  destruct (await_task_doomed (Some d) sched h (cancel h st) Hdoom Hwf1)
    as (st1 & -> & Hdone & [H1 H2 H3] & Ha2).
  eexists. split; [reflexivity|]. simpl. split_and!; [split; simpl| |done].
  - intros tid t Ht Hlive. specialize (H1 _ _ Ht Hlive).
    destruct (decide (t_device_id t = d)) as [Heq|Hne].
    + exfalso. rewrite Heq, Ha2, Ha1, Hd in H1. simplify_eq.
      unfold task_done in Hdone. rewrite Ht in Hdone.
      by apply bool_decide_eq_true_1 in Hdone.
    + by rewrite lookup_delete_ne.
  - intros d' h' Hh'. destruct (decide (d' = d)) as [->|Hne].
    + by rewrite lookup_delete_eq in Hh'.
    + rewrite lookup_delete_ne in Hh' by done.
      destruct (H2 _ _ Hh') as (t & Ht & Hdev & Hl).
      exists t. split_and!; [done|done|]. intros _. apply Hl. congruence.
  - done.
  - by rewrite Ha2, Ha1.
Qed.

Lemma wf_stop sched d b st st' :
  wf st → stop_device_worker sched d st = Some (b, st') → wf st'.
Proof.
  intros Hwf Hstop. destruct (active_workers st !! d) as [h|] eqn:Hd.
  - destruct (stop_device_worker_registered sched d h st Hwf Hd)
      as (st1 & Hrun & Hwf1 & _). congruence.
  - rewrite stop_device_worker_unregistered in Hstop by done.
    simplify_eq. by apply (wf_but_ext _ st).
Qed.

Lemma reachable_wf st : reachable st → wf st.
Proof.
  induction 1 as [| | | |st store _ IH|st lvl msg _ IH].
  - apply wf_initial.
  - by apply wf_start.
  - by eapply wf_stop.
  - by apply wf_but_task_step.
  - by apply (wf_but_ext _ st).
  - by apply (wf_but_ext _ st).
Qed.
End Invariant.

(** ** The worker registry: lifecycle operations *)

Section Lifecycle.
Implicit Types (st : State) (tid h : TaskId) (d : UUID).

Lemma start_device_worker_fresh d n ty st :
  active_workers st !! d = None →
  ∃ st1, start_device_worker d n ty st = (true, st1)
         ∧ active_workers st1 = <[d := next_task st]> (active_workers st)
         ∧ tasks st1 = <[next_task st := mkTask d n ty Created false]> (tasks st)
         ∧ db st1 = db st.
Proof.
  intros Hd. unfold start_device_worker. rewrite Hd. simpl.
  eexists. by split_and!.
Qed.

Lemma start_device_worker_taken d n ty h st :
  active_workers st !! d = Some h →
  start_device_worker d n ty st = (false, log_add WARNING (AlreadyRunning d) st).
Proof. intros Hd. unfold start_device_worker. by rewrite Hd. Qed.

Lemma start_device_worker_registers d n ty st :
  is_Some (active_workers (start_device_worker d n ty st).2 !! d).
Proof.
  destruct (active_workers st !! d) as [h|] eqn:Hd.
  - rewrite (start_device_worker_taken d n ty h) by done. simpl. by rewrite Hd.
  - destruct (start_device_worker_fresh d n ty st Hd) as (st1 & -> & Ha & _).
    simpl. rewrite Ha, lookup_insert_eq. by eexists.
Qed.


(** Under the invariant the registered handle of a device is its one
    running worker. *)
Lemma wf_single_worker d h st :
  wf st → active_workers st !! d = Some h →
  live_for d st h ∧ ∀ tid, live_for d st tid → tid = h.
Proof.
  intros [H1 H2 _] Hd. split.
  - destruct (H2 d h Hd) as (t & Ht & Hdev & Hl).
    exists t. split_and!; [done|done|]. by apply Hl.
  - intros tid (t & Ht & Hdev & Hlive).
    specialize (H1 _ _ Ht Hlive). congruence.
Qed.
End Lifecycle.

(** C1. Start on a device that has no handle registers one new handle, for
    a new task, and returns true.  Start on a device that has a handle
    returns false and leaves the map and the tasks of the loop as they were.
    Hence a second Start for the same id returns false, and after it the map
    holds one handle for the id, which, in every state the registry can
    reach, is the only running worker of that device. *)
Theorem start_device_worker_single st d n ty n' ty' :
  (active_workers st !! d = None →
     ∃ st1, start_device_worker d n ty st = (true, st1)
            ∧ active_workers st1 = <[d := next_task st]> (active_workers st)
            ∧ tasks st1 = <[next_task st := mkTask d n ty Created false]> (tasks st)
            ∧ get_active_worker_count st1 = S (get_active_worker_count st))
  ∧ (∀ h, active_workers st !! d = Some h →
     ∃ st1, start_device_worker d n ty st = (false, st1)
            ∧ active_workers st1 = active_workers st
            ∧ tasks st1 = tasks st
            ∧ get_active_worker_count st1 = get_active_worker_count st)
  ∧ (∃ h st2,
       start_device_worker d n' ty' (start_device_worker d n ty st).2 = (false, st2)
       ∧ active_workers st2 = active_workers (start_device_worker d n ty st).2
       ∧ tasks st2 = tasks (start_device_worker d n ty st).2
       ∧ active_workers st2 !! d = Some h
       ∧ (reachable st →
          live_for d st2 h ∧ ∀ tid, live_for d st2 tid → tid = h)).
Proof.
  split_and!.
  - intros Hd. destruct (start_device_worker_fresh d n ty st Hd)
      as (st1 & Hrun & Ha & Ht & _).
    exists st1. split_and!; [done..|].
    unfold get_active_worker_count. rewrite Ha. by apply map_size_insert_None.
  - intros h Hd. rewrite (start_device_worker_taken d n ty h) by done.
    eexists. by split_and!.
  - destruct (start_device_worker_registers d n ty st) as [h Hh].
    set (st1 := (start_device_worker d n ty st).2) in *.
    exists h. rewrite (start_device_worker_taken d n' ty' h) by done.
    eexists. split; [reflexivity|]. simpl. split_and!; [done..|].
    intros Hreach. apply (wf_single_worker d h st1); [|done].
    apply reachable_wf. by apply reach_start.
Qed.

Lemma start_device_worker_single_witness :
  let st1 := (start_device_worker 1%N "Gate A" ANPR sample_state).2 in
  reachable sample_state
  ∧ active_workers sample_state !! 1%N = None
  ∧ active_workers st1 !! 1%N = Some 0%nat
  ∧ start_device_worker 1%N "Gate A" ANPR sample_state = (true, st1)
  ∧ get_active_worker_count st1 = 1%nat
  ∧ (∃ st2, start_device_worker 1%N "Gate A" ANPR st1 = (false, st2)
            ∧ active_workers st2 = active_workers st1
            ∧ tasks st2 = tasks st1
            ∧ get_active_worker_count st2 = 1%nat
            ∧ live_for 1%N st2 0%nat
            ∧ ∀ tid, live_for 1%N st2 tid → tid = 0%nat).
Proof.
  intros st1.
  assert (Hreach : reachable sample_state) by apply reach_init.
  assert (Hfree : active_workers sample_state !! 1%N = None) by reflexivity.
  assert (Htaken : active_workers st1 !! 1%N = Some 0%nat) by reflexivity.
  destruct (start_device_worker_single sample_state 1%N "Gate A" ANPR "Gate A" ANPR)
    as (Hfresh & _ & (h & st2 & Hrun & _ & _ & Hh & Hone)).
  destruct (start_device_worker_single st1 1%N "Gate A" ANPR "Gate A" ANPR)
    as (_ & Hsecond & _).
  destruct (Hfresh Hfree) as (st1' & Hrun1 & _ & _ & Hcount1).
  assert (st1' = st1) as -> by (unfold st1; by rewrite Hrun1).
  destruct (Hsecond 0%nat Htaken) as (st2' & Hrun2 & Ha2 & Ht2 & Hcount2).
  assert (st2' = st2) as -> by (unfold st1 in Hrun2; congruence).
  destruct (Hone Hreach) as [Hlive Huniq].
  assert (h = 0%nat) as ->.
  { rewrite Ha2 in Hh. unfold st1 in Hh. vm_compute in Hh. by injection Hh. }
  split_and!; [exact Hreach|exact Hfree|exact Htaken|exact Hrun1|exact Hcount1|].
  exists st2. split_and!; [exact Hrun2|exact Ha2|exact Ht2| |exact Hlive|exact Huniq].
  by rewrite Hcount2.
Defined.

(** C6. Stop on a device that has no handle returns false and leaves the
    worker map as it was, entry for entry; the tasks of the loop and the
    store are untouched as well. *)
Theorem stop_device_worker_unregistered_noop st d sched :
  active_workers st !! d = None →
  ∃ st', stop_device_worker sched d st = Some (false, st')
         ∧ active_workers st' = active_workers st
         ∧ tasks st' = tasks st
         ∧ db st' = db st.
Proof.
  intros Hd. rewrite stop_device_worker_unregistered by done.
  eexists. by split_and!.
Qed.

Lemma stop_device_worker_unregistered_noop_witness :
  active_workers sample_state !! 2%N = None
  ∧ ∃ st', stop_device_worker [] 2%N sample_state = Some (false, st')
           ∧ active_workers st' = active_workers sample_state
           ∧ tasks st' = tasks sample_state
           ∧ db st' = db sample_state.
Proof.
  assert (Hfree : active_workers sample_state !! 2%N = None) by reflexivity.
  split; [exact Hfree|].
  exact (stop_device_worker_unregistered_noop sample_state 2%N [] Hfree).
Defined.

(** ** The worker loop *)

Section WorkerLoop.
Implicit Types (st : State) (tid : TaskId) (d : UUID).

Lemma emit_transaction_absent d ty st :
  devices (db st) !! d = None →
  (emit_transaction d ty st).1 = inl (ValueError (DeviceDoesNotExist d)).
Proof.
  intros Hd. destruct (emit_transaction_store d ty st) as (data & Hdev & -> & _).
  unfold create_transaction. by rewrite Hdev, Hd.
Qed.

Lemma emit_transaction_error_store d ty st e st1 :
  emit_transaction d ty st = (inl e, st1) → db st1 = db st.
Proof.
  intros Hemit.
  destruct (emit_transaction_store d ty st) as (data & _ & Hr & Hdb).
  rewrite Hemit in Hr, Hdb. simpl in Hr, Hdb. rewrite Hdb.
  destruct (create_transaction_cases (db st) data (supply_head (uuid4 st))
              (supply_head (utcnow st))) as [_ [(e' & _ & ->)|(txn & Hok & _)]];
    [done|congruence].
Qed.

Lemma task_step_sleeping tid t st :
  tasks st !! tid = Some t → t_state t = Sleeping → t_must_cancel t = false →
  task_step tid st
    = worker_iteration (t_device_id t) (t_device_name t) (t_device_type t) st.
Proof. intros Ht Hs Hc. unfold task_step. by rewrite Ht, Hs, Hc. Qed.
(** Two workers resumed in turn: each iteration adds a transaction of its
    own device. *)
Example two_workers_sample :
  let st := (start_device_worker 3%N "Lobby C" FACE_READER
               (start_device_worker 1%N "Gate A" ANPR sample_state).2).2 in
  let st' := run [0; 1; 0; 1; 1; 0]%nat st in
  size (transactions_of 1%N st') = 2%nat
  ∧ size (transactions_of 3%N st') = 2%nat
  ∧ head (log st')
    = Some (INFO, GeneratedTransaction "Gate A" "plate_read" "bob.jones" 103%N).
Proof. by vm_compute. Qed.
End WorkerLoop.

(** C5. When the emission of an iteration raises, whatever the error, the
    iteration ends with an ERROR record for the device and nothing else: the
    store is as before, the task is still in its loop, asleep and with no
    cancellation pending, and its next resumption is the next iteration. *)
Theorem emission_error_keeps_worker st tid t e st1 :
  tasks st !! tid = Some t → t_state t = Sleeping → t_must_cancel t = false →
  emit_transaction (t_device_id t) (t_device_type t) st = (inl e, st1) →
  task_step tid st = log_add ERROR (ErrorCreatingTransaction (t_device_id t) e) st1
  ∧ log (task_step tid st)
    = (ERROR, ErrorCreatingTransaction (t_device_id t) e) :: log st
  ∧ db (task_step tid st) = db st
  ∧ tasks (task_step tid st) !! tid = Some t
  ∧ task_done tid (task_step tid st) = false
  ∧ task_step tid (task_step tid st)
    = worker_iteration (t_device_id t) (t_device_name t) (t_device_type t)
        (task_step tid st).
Proof.
  intros Ht Hs Hc Hemit.
  pose proof (emit_transaction_frame (t_device_id t) (t_device_type t) st)
    as (_ & Htasks & _ & Hlog).
  rewrite Hemit in Htasks, Hlog. simpl in Htasks, Hlog.
  assert (Hstep : task_step tid st
            = log_add ERROR (ErrorCreatingTransaction (t_device_id t) e) st1).
  { rewrite (task_step_sleeping tid t) by done.
    unfold worker_iteration. by rewrite Hemit. }
  assert (Ht' : tasks (task_step tid st) !! tid = Some t).
  { rewrite Hstep. simpl. by rewrite Htasks. }
  split_and!; [exact Hstep| | |exact Ht'| |].
  - rewrite Hstep. simpl. by rewrite Hlog.
  - rewrite Hstep. simpl. by eapply emit_transaction_error_store.
  - unfold task_done. rewrite Ht'. apply bool_decide_eq_false_2. congruence.
  - by apply task_step_sleeping.
Qed.

Lemma emission_error_keeps_worker_witness :
  let st := task_step 0%nat (start_device_worker 9%N "Ghost" ANPR sample_state).2 in
  let t := mkTask 9%N "Ghost" ANPR Sleeping false in
  let e := ValueError (DeviceDoesNotExist 9%N) in
  tasks st !! 0%nat = Some t
  ∧ (emit_transaction 9%N ANPR st).1 = inl e
  ∧ log (task_step 0%nat st) = (ERROR, ErrorCreatingTransaction 9%N e) :: log st
  ∧ db (task_step 0%nat st) = db st
  ∧ tasks (task_step 0%nat st) !! 0%nat = Some t
  ∧ task_done 0%nat (task_step 0%nat st) = false.
Proof.
  intros st t e.
  assert (Ht : tasks st !! 0%nat = Some t) by reflexivity.
  assert (Hemit : (emit_transaction 9%N ANPR st).1 = inl e).
  { apply emit_transaction_absent. reflexivity. }
  assert (Hpair : emit_transaction (t_device_id t) (t_device_type t) st
                  = (inl e, (emit_transaction 9%N ANPR st).2)).
  { simpl. rewrite <- Hemit. apply surjective_pairing. }
  destruct (emission_error_keeps_worker st 0%nat t e _ Ht eq_refl eq_refl Hpair)
    as (_ & Hlog & Hdb & Htask & Hdone & _).
  split_and!; [exact Ht|exact Hemit|exact Hlog|exact Hdb|exact Htask|exact Hdone].
Defined.

(** ** After a stop *)

Section Quiescence.
Implicit Types (st : State) (tid h : TaskId) (d : UUID).







End Quiescence.




(** ** Stopping every worker *)

Section StopAll.
Implicit Types (st : State) (d : UUID).

Lemma stop_device_worker_total sched d st :
  wf st →
  ∃ b st', stop_device_worker sched d st = Some (b, st')
           ∧ wf st'
           ∧ active_workers st' = delete d (active_workers st).
Proof.
  intros Hwf. destruct (active_workers st !! d) as [h|] eqn:Hd.
  - destruct (stop_device_worker_registered sched d h st Hwf Hd)
      as (st' & Hrun & Hwf' & Ha & _).
    by exists true, st'.
  - rewrite stop_device_worker_unregistered by done.
    eexists _, _. split; [reflexivity|]. split.
    + by apply (wf_but_ext _ st).
    + simpl. by rewrite delete_id.
Qed.

End StopAll.



(** ** Startup reconciliation *)

Section Reconciliation.
Implicit Types (st : State) (start : Starter).


Lemma lifespan_startup_with_devices start st devs :
  get_active_devices (db st) = devs → devs ≠ [] →
  lifespan_startup_with start st
  = match restore_workers start devs
            (log_add INFO (FoundActiveDevices (length devs))
               (log_add INFO StartingDeviceWorkers st)) with
    | (inl e, st') => log_add ERROR (StartupError e) st'
    | (inr _, st') => log_add INFO (SuccessfullyStarted (length devs)) st'
    end.
Proof.
  intros Hdevs Hne. unfold lifespan_startup_with. simpl db. rewrite Hdevs.
  destruct devs as [|dev devs]; [done|].
  by destruct (restore_workers _ _ _) as [[e|u] st'].
Qed.

Lemma restore_workers_reachable devs st :
  reachable st → reachable (restore_workers start_device_worker_call devs st).2.
Proof.
  revert st. induction devs as [|dev devs IH]; intros st Hreach; simpl; [done|].
  unfold start_device_worker_call at 1.
  pose proof (reach_start st (id dev) (name dev) (device_type dev) Hreach) as Hr.
  destruct (start_device_worker (id dev) (name dev) (device_type dev) st)
    as [b st1].
  by apply IH, reach_log.
Qed.

(** The state startup leaves is one the invariant covers. *)
Lemma lifespan_startup_reachable st :
  reachable st → reachable (lifespan_startup st).
Proof.
  intros Hreach. unfold lifespan_startup.
  destruct (get_active_devices (db st)) as [|dev devs] eqn:Hdevs.
  - unfold lifespan_startup_with. simpl db. rewrite Hdevs.
    by do 2 apply reach_log.
  - rewrite (lifespan_startup_with_devices _ st _ Hdevs) by done.
    pose proof (restore_workers_reachable (dev :: devs)
                  (log_add INFO (FoundActiveDevices (length (dev :: devs)))
                     (log_add INFO StartingDeviceWorkers st))) as Hr.
    destruct (restore_workers _ _ _) as [[e|u] st'];
      apply reach_log, Hr; by do 2 apply reach_log.
Qed.

End Reconciliation.




(** * Further properties of the code *)

(** ** The event content producer, all categories *)

Section PayloadAll.
Implicit Types (g : Rng) (ev : string).

Lemma append_cons c s t : String c s +:+ t = String c (s +:+ t).
Proof. reflexivity. Qed.

Lemma fullmatch_app p1 p2 s1 s2 :
  fullmatch p1 s1 = true → fullmatch p2 s2 = true →
  fullmatch (p1 ++ p2) (s1 +:+ s2) = true.
Proof.
  revert s1. induction p1 as [|cc p1 IH]; intros [|c s1] H1 H2;
    try discriminate H1.
  - exact H2.
  - cbn [fullmatch] in H1. apply andb_prop in H1 as [Hc Hrest].
    change (fullmatch (cc :: (p1 ++ p2)) (String c (s1 +:+ s2)) = true).
    cbn [fullmatch]. by rewrite Hc, IH.
Qed.

Lemma four_digits_all :
  forallb (λ n, fullmatch four_digits (str_int n)) (seqZ 1000 9000) = true.
Proof. by vm_compute. Qed.

Lemma four_digits_format (n : Z) :
  (1000 ≤ n ≤ 9999)%Z → fullmatch four_digits (str_int n) = true.
Proof.
  intros Hn. pose proof four_digits_all as Hall.
  rewrite forallb_forall in Hall. apply Hall, list_elem_of_In, elem_of_seqZ. lia.
Qed.

(** The payload of each category, with what is known of its parts. *)
Lemma payload_shape ty ev g :
  ∃ conf ms,
    (75 ≤ conf ≤ 99)%Z ∧ (50 ≤ ms ≤ 500)%Z ∧
    let base : gmap string JVal :=
      <["processing_time_ms" := JInt ms]> (<["confidence" := JCenti conf]> ∅) in
    match ty with
    | ACCESS_CONTROLLER =>
        ∃ c1 c2 r,
          (generate_transaction_payload ty ev g).1
            = <["reader_id" := JStr ("READER-" +:+ str_int r)]>
                (<["card_number" := JStr (str_int c1 +:+ "-" +:+ str_int c2)]> base)
          ∧ (1000 ≤ c1 ≤ 9999)%Z ∧ (1000 ≤ c2 ≤ 9999)%Z ∧ (1 ≤ r ≤ 10)%Z
    | FACE_READER =>
        ∃ f q,
          (generate_transaction_payload ty ev g).1
            = <["image_quality" := JCenti q]>
                (<["face_id" := JStr ("FACE-" +:+ str_int f)]> base)
          ∧ (1000 ≤ f ≤ 9999)%Z ∧ (60 ≤ q ≤ 100)%Z
    | ANPR =>
        ∃ plate cam vehicle,
          (generate_transaction_payload ty ev g).1
            = <["vehicle_type" := JStr vehicle]>
                (<["camera_id" := JStr ("CAM-" +:+ str_int cam)]>
                   (<["plate_number" := JStr plate]> base))
    end.
Proof.
  pose proof (randint_range 75 99 g) as Hconf.
  destruct (randint 75 99 g) as [conf g1] eqn:Econf.
  pose proof (randint_range 50 500 g1) as Hms.
  destruct (randint 50 500 g1) as [ms g2] eqn:Ems.
  cbn [fst] in Hconf, Hms.
  exists conf, ms. split; [apply Hconf; lia|]. split; [apply Hms; lia|].
  cbv zeta.
  destruct ty; unfold generate_transaction_payload, rand_bind, rand_ret,
    uniform_round2; rewrite Econf, Ems.
  - pose proof (randint_range 1000 9999 g2) as H1.
    destruct (randint 1000 9999 g2) as [c1 g3].
    pose proof (randint_range 1000 9999 g3) as H2.
    destruct (randint 1000 9999 g3) as [c2 g4].
    pose proof (randint_range 1 10 g4) as H3.
    destruct (randint 1 10 g4) as [r g5].
    cbn [fst] in *. exists c1, c2, r.
    split; [reflexivity|]. split; [apply H1; lia|]. split; [apply H2; lia|].
    apply H3; lia.
  - pose proof (randint_range 1000 9999 g2) as H1.
    destruct (randint 1000 9999 g2) as [f g3].
    pose proof (randint_range 60 100 g3) as H2.
    destruct (randint 60 100 g3) as [q g4].
    cbn [fst] in *. exists f, q.
    split; [reflexivity|]. split; [apply H1; lia|]. apply H2; lia.
  - destruct (choices "A"%char _ 3 g2) as [letters g3].
    destruct (choices "0"%char _ 4 g3) as [digits g4].
    destruct (randint 1 5 g4) as [cam g5].
    destruct (choice "car" _ g5) as [vehicle g6].
    by eexists _, cam, vehicle.
Qed.
End PayloadAll.

(** X1. Whatever the category, the payload has a confidence between 0.75
    and 0.99 (in hundredths) and a processing time between 50 and 500. *)
Theorem payload_common_fields ty ev g :
  ∃ conf ms,
    (generate_transaction_payload ty ev g).1 !! "confidence" = Some (JCenti conf)
    ∧ (75 ≤ conf ≤ 99)%Z
    ∧ (generate_transaction_payload ty ev g).1 !! "processing_time_ms" = Some (JInt ms)
    ∧ (50 ≤ ms ≤ 500)%Z.
Proof.
  destruct (payload_shape ty ev g) as (conf & ms & Hc & Hm & Hshape).
  exists conf, ms. cbv zeta in Hshape.
  assert (Hlook :
    (generate_transaction_payload ty ev g).1 !! "confidence" = Some (JCenti conf)
    ∧ (generate_transaction_payload ty ev g).1 !! "processing_time_ms" = Some (JInt ms)).
  { destruct ty.
    - destruct Hshape as (c1 & c2 & r & -> & _).
      split; repeat (rewrite lookup_insert_ne by done); apply lookup_insert_eq.
    - destruct Hshape as (f & q & -> & _).
      split; repeat (rewrite lookup_insert_ne by done); apply lookup_insert_eq.
    - destruct Hshape as (plate & cam & vehicle & ->).
      split; repeat (rewrite lookup_insert_ne by done); apply lookup_insert_eq. }
  destruct Hlook as [Hl1 Hl2]. destruct Hc, Hm. by split_and!.
Qed.

(** X2. For an access controller the payload has a card number of two
    groups of four digits joined by a hyphen, each group a number from 1000
    to 9999, and a reader id READER-n with n from 1 to 10. *)
Theorem access_controller_payload_format ev g :
  ∃ card r,
    (generate_transaction_payload ACCESS_CONTROLLER ev g).1 !! "card_number"
      = Some (JStr card)
    ∧ fullmatch card_pattern card = true
    ∧ (generate_transaction_payload ACCESS_CONTROLLER ev g).1 !! "reader_id"
      = Some (JStr ("READER-" +:+ str_int r))
    ∧ (1 ≤ r ≤ 10)%Z.
Proof.
  destruct (payload_shape ACCESS_CONTROLLER ev g)
    as (conf & ms & _ & _ & (c1 & c2 & r & -> & H1 & H2 & H3)).
  exists (str_int c1 +:+ "-" +:+ str_int c2), r. split_and!; try lia.
  - rewrite lookup_insert_ne by done. apply lookup_insert_eq.
  - unfold card_pattern. apply fullmatch_app; [by apply four_digits_format|].
    apply (fullmatch_app [Lit "-"] four_digits "-"); [done|].
    by apply four_digits_format.
  - apply lookup_insert_eq.
Qed.

(** X3. For a face reader the payload has a face id FACE-n with n a number
    from 1000 to 9999 and an image quality between 0.60 and 1.00 (in
    hundredths). *)
Theorem face_reader_payload_format ev g :
  ∃ face q,
    (generate_transaction_payload FACE_READER ev g).1 !! "face_id"
      = Some (JStr face)
    ∧ fullmatch face_pattern face = true
    ∧ (generate_transaction_payload FACE_READER ev g).1 !! "image_quality"
      = Some (JCenti q)
    ∧ (60 ≤ q ≤ 100)%Z.
Proof.
  destruct (payload_shape FACE_READER ev g)
    as (conf & ms & _ & _ & (f & q & -> & H1 & H2)).
  exists ("FACE-" +:+ str_int f), q. split_and!; try lia.
  - rewrite lookup_insert_ne by done. apply lookup_insert_eq.
  - unfold face_pattern.
    apply (fullmatch_app [Lit "F"; Lit "A"; Lit "C"; Lit "E"; Lit "-"]
             four_digits "FACE-"); [done|].
    by apply four_digits_format.
  - apply lookup_insert_eq.
Qed.

(** X4. The keys of a payload are the two common ones and those of its
    category, and no others: a payload never carries a field of another
    category. *)
Theorem payload_keys ty ev g :
  dom (generate_transaction_payload ty ev g).1
  = match ty with
    | ACCESS_CONTROLLER =>
        {["confidence"; "processing_time_ms"; "card_number"; "reader_id"]}
    | FACE_READER =>
        {["confidence"; "processing_time_ms"; "face_id"; "image_quality"]}
    | ANPR =>
        {["confidence"; "processing_time_ms"; "plate_number"; "camera_id";
          "vehicle_type"]}
    end.
Proof.
  destruct (payload_shape ty ev g) as (conf & ms & _ & _ & Hshape).
  cbv zeta in Hshape. destruct ty.
  - destruct Hshape as (c1 & c2 & r & -> & _).
    rewrite !dom_insert_L, dom_empty_L. set_solver.
  - destruct Hshape as (f & q & -> & _).
    rewrite !dom_insert_L, dom_empty_L. set_solver.
  - destruct Hshape as (plate & cam & vehicle & ->).
    rewrite !dom_insert_L, dom_empty_L. set_solver.
Qed.

(** ** What the workers write *)

Section Emission.
Implicit Types (st : State) (d : UUID) (ty : DeviceType).

Lemma event_types_cover ty :
  ∃ labels, (ty, labels) ∈ EVENT_TYPES
            ∧ length labels = 5%nat
            ∧ dict_get EVENT_TYPES ty ["generic_event"] = labels.
Proof.
  destruct ty; eexists.
  - split; [apply list_elem_of_here|by split].
  - split; [apply list_elem_of_further, list_elem_of_here|by split].
  - split; [do 2 apply list_elem_of_further; apply list_elem_of_here|by split].
Qed.

Lemma task_step_store tid st :
  devices (db (task_step tid st)) = devices (db st)
  ∧ transactions (db st) ⊆ transactions (db (task_step tid st)).
Proof.
  unfold task_step. destruct (tasks st !! tid) as [t|]; [|done].
  destruct (t_state t), (t_must_cancel t); try done.
  unfold worker_iteration.
  destruct (emit_transaction_store (t_device_id t) (t_device_type t) st)
    as (data & _ & _ & Hdb).
  destruct (create_transaction_cases (db st) data (supply_head (uuid4 st))
              (supply_head (utcnow st)))
    as [Hdev [(e & _ & Hsame)|(txn & _ & _ & Hfree & Hins)]].
  - rewrite Hsame in Hdb.
    destruct (emit_transaction _ _ st) as [[e'|txn] st']; simpl in *;
      by rewrite Hdb.
  - rewrite <- Hdb in Hdev, Hins.
    destruct (emit_transaction _ _ st) as [[e'|txn'] st']; simpl in *;
      (split; [done|]); rewrite Hins; by apply insert_subseteq.
Qed.

Lemma fk_ok_create_transaction store data new_id now :
  fk_ok store → fk_ok (create_transaction store data new_id now).2.
Proof.
  intros Hfk. unfold create_transaction.
  destruct (devices store !! tc_device_id data) as [dev|] eqn:Hdev; [|done].
  destruct (transactions store !! new_id) eqn:Hk; [done|].
  intros k txn. simpl. destruct (decide (k = new_id)) as [->|Hne].
  - rewrite lookup_insert_eq. intros [= <-]. simpl. by rewrite Hdev.
  - rewrite lookup_insert_ne by done. apply Hfk.
Qed.

Lemma fk_ok_task_step tid st : fk_ok (db st) → fk_ok (db (task_step tid st)).
Proof.
  intros Hfk. unfold task_step. destruct (tasks st !! tid) as [t|]; [|done].
  destruct (t_state t), (t_must_cancel t); try done.
  unfold worker_iteration.
  destruct (emit_transaction_store (t_device_id t) (t_device_type t) st)
    as (data & _ & _ & Hdb).
  pose proof (fk_ok_create_transaction (db st) data (supply_head (uuid4 st))
                (supply_head (utcnow st)) Hfk) as Hfk'.
  rewrite <- Hdb in Hfk'.
  by destruct (emit_transaction _ _ st) as [[e'|txn'] st'].
Qed.
End Emission.

(** X5. A transaction that a worker emits is stored under the fresh id, for
    the worker's own device, with a user name among the eight samples, an
    event label among the five of the device's category (never the generic
    fallback) and a payload; the devices are untouched. *)
Theorem emitted_transaction_fields d ty st txn st1 :
  emit_transaction d ty st = (inr txn, st1) →
  device_id txn = d
  ∧ transaction_id txn = supply_head (uuid4 st)
  ∧ username txn ∈ SAMPLE_USERNAMES
  ∧ (∃ labels, (ty, labels) ∈ EVENT_TYPES ∧ length labels = 5%nat
               ∧ event_type txn ∈ labels)
  ∧ event_type txn ≠ "generic_event"
  ∧ is_Some (payload txn)
  ∧ transactions (db st) !! transaction_id txn = None
  ∧ transactions (db st1) = <[transaction_id txn := txn]> (transactions (db st))
  ∧ devices (db st1) = devices (db st).
Proof.
  unfold emit_transaction.
  pose proof (choice_elem "" SAMPLE_USERNAMES (rng st)) as Hu.
  destruct (choice "" SAMPLE_USERNAMES (rng st)) as [u g1].
  destruct (event_types_cover ty) as (labels & Hin & Hlen & Hget).
  pose proof (choice_elem "" (dict_get EVENT_TYPES ty ["generic_event"]) g1) as He.
  rewrite Hget in *.
  destruct (choice "" labels g1) as [ev g2].
  destruct (generate_transaction_payload ty ev g2) as [pl g3].
  unfold create_transaction. simpl.
  destruct (devices (db st) !! d); [|discriminate].
  destruct (transactions (db st) !! supply_head (uuid4 st)) eqn:Hfree; [discriminate|].
  intros [= <- <-]. simpl.
  assert (Hev : ev ∈ labels) by (apply He; by destruct labels).
  split_and!; try done.
  - by apply Hu.
  - by exists labels.
  - intros ->. clear -Hin Hev.
    unfold EVENT_TYPES in Hin.
    repeat (apply elem_of_cons in Hin as [Hin|Hin];
            [injection Hin as _ ->;
             repeat (apply elem_of_cons in Hev as [Hev|Hev]; [discriminate Hev|]);
             by apply elem_of_nil in Hev|]).
    by apply elem_of_nil in Hin.
Qed.

Lemma emitted_transaction_fields_witness :
  let st := (start_device_worker 1%N "Gate A" ANPR sample_state).2 in
  ∃ txn st1,
    emit_transaction 1%N ANPR st = (inr txn, st1)
    ∧ device_id txn = 1%N
    ∧ transaction_id txn = 100%N
    ∧ username txn ∈ SAMPLE_USERNAMES
    ∧ event_type txn ≠ "generic_event"
    ∧ transactions (db st1) = <[100%N := txn]> (transactions (db st)).
Proof.
  intros st.
  destruct (emit_transaction 1%N ANPR st) as [r st1] eqn:Hemit.
  assert (Hok : ∃ txn, r = inr txn).
  { assert (Hr : (emit_transaction 1%N ANPR st).1 = r) by (by rewrite Hemit).
    clear Hemit. vm_compute in Hr. destruct r; [discriminate|by eexists]. }
  destruct Hok as [txn ->].
  destruct (emitted_transaction_fields 1%N ANPR st txn st1 Hemit)
    as (Hd & Hid & Hu & _ & Hg & _ & _ & Hins & _).
  exists txn, st1. split; [reflexivity|].
  assert (Hid' : transaction_id txn = 100%N) by (rewrite Hid; reflexivity).
  rewrite Hid' in Hins. by split_and!.
Defined.

(** X6. Whatever the event loop resumes, the workers leave the table of
    devices as it is and every transaction already stored in place,
    unchanged: they only add rows. *)
Theorem workers_only_add_transactions sched st :
  devices (db (run sched st)) = devices (db st)
  ∧ transactions (db st) ⊆ transactions (db (run sched st)).
Proof.
  revert st. induction sched as [|tid sched IH]; intros st; [done|].
  rewrite run_cons. destruct (IH (task_step tid st)) as [Hd Ht].
  destruct (task_step_store tid st) as [Hd' Ht'].
  split; [congruence|]. by etrans.
Qed.

(** X7. The foreign key of the transactions is kept by every write of the
    code: when each stored transaction refers to a stored device, it still
    does after [create_transaction], [create_device],
    [toggle_device_status] and any run of the workers. *)
Theorem foreign_key_preserved store :
  fk_ok store →
  (∀ data new_id now, fk_ok (create_transaction store data new_id now).2)
  ∧ (∀ str_upper data new_id now,
       fk_ok (create_device str_upper store data new_id now).2)
  ∧ (∀ d now, fk_ok (toggle_device_status store d now).2)
  ∧ (∀ sched st, db st = store → fk_ok (db (run sched st))).
Proof.
  intros Hfk. split_and!.
  - intros. by apply fk_ok_create_transaction.
  - intros str_upper data new_id now. unfold create_device.
    destruct (DeviceType_getitem _) as [ty|]; [|done].
    destruct (devices store !! new_id) eqn:Hfree; [done|].
    intros k txn Hk. simpl in *. destruct (Hfk k txn Hk) as [dev Hdev].
    destruct (decide (device_id txn = new_id)) as [Heq|Hne].
    + rewrite Heq, lookup_insert_eq. by eexists.
    + rewrite lookup_insert_ne by done. by eexists.
  - intros d now. unfold toggle_device_status, get_device_by_id.
    destruct (devices store !! d) as [dev|] eqn:Hd; [|done].
    intros k txn Hk. simpl in *. destruct (Hfk k txn Hk) as [dev' Hdev].
    destruct (decide (device_id txn = d)) as [Heq|Hne].
    + rewrite Heq, lookup_insert_eq. by eexists.
    + rewrite lookup_insert_ne by done. by eexists.
  - intros sched st <-. induction sched as [|tid sched IH] using rev_ind; [done|].
    rewrite run_snoc. by apply fk_ok_task_step.
Qed.

Lemma foreign_key_preserved_witness :
  let st := (start_device_worker 1%N "Gate A" ANPR sample_state).2 in
  fk_ok sample_store
  ∧ fk_ok (db (run [0; 0; 0]%nat st))
  ∧ size (transactions (db (run [0; 0; 0]%nat st))) = 2%nat.
Proof.
  intros st.
  assert (Hfk : fk_ok sample_store).
  { intros k txn Hk. cbn [sample_store transactions] in Hk.
    by rewrite lookup_empty in Hk. }
  destruct (foreign_key_preserved sample_store Hfk) as (_ & _ & _ & Hrun).
  split; [exact Hfk|]. split; [by apply Hrun|]. by vm_compute.
Defined.

(** ** Worker presence and activation status *)

Section Sync.
Implicit Types (st : State) (d : UUID) (store : Db).

Lemma elem_of_get_active_devices store dev :
  dev ∈ get_active_devices store ↔
  ∃ k, devices store !! k = Some dev ∧ status dev = ACTIVE.
Proof.
  unfold get_active_devices. rewrite list_elem_of_filter, list_elem_of_fmap. split.
  - intros [Hact ([k dev'] & -> & Hin)]. exists k.
    split; [by apply elem_of_map_to_list|done].
  - intros (k & Hk & Hact). split; [done|]. exists (k, dev).
    split; [done|]. by apply elem_of_map_to_list.
Qed.

Lemma start_device_worker_others d n ty st k :
  k ≠ d →
  active_workers (start_device_worker d n ty st).2 !! k = active_workers st !! k.
Proof.
  intros Hne. destruct (active_workers st !! d) as [h|] eqn:Hd.
  - by rewrite (start_device_worker_taken d n ty h).
  - destruct (start_device_worker_fresh d n ty st Hd) as (st1 & -> & Ha & _).
    simpl. rewrite Ha. by apply lookup_insert_ne.
Qed.

Lemma start_device_worker_db d n ty st :
  db (start_device_worker d n ty st).2 = db st.
Proof.
  destruct (active_workers st !! d) as [h|] eqn:Hd.
  - by rewrite (start_device_worker_taken d n ty h).
  - by destruct (start_device_worker_fresh d n ty st Hd) as (st1 & -> & _ & _ & Hdb).
Qed.

(** The reconciliation loop registers the devices of its list and no
    other, and leaves the store alone. *)
Lemma restore_workers_exact devs st :
  db (restore_workers start_device_worker_call devs st).2 = db st
  ∧ ∀ k, is_Some (active_workers
                    (restore_workers start_device_worker_call devs st).2 !! k)
         ↔ is_Some (active_workers st !! k) ∨ k ∈ id <$> devs.
Proof.
  revert st. induction devs as [|dev devs IH]; intros st; simpl.
  - split; [done|]. intros k. rewrite elem_of_nil. tauto.
  - unfold start_device_worker_call at 1 3.
    pose proof (start_device_worker_db (id dev) (name dev) (device_type dev) st)
      as Hdb.
    pose proof (start_device_worker_registers (id dev) (name dev)
                  (device_type dev) st) as Hreg.
    pose proof (start_device_worker_others (id dev) (name dev)
                  (device_type dev) st) as Hoth.
    destruct (start_device_worker (id dev) (name dev) (device_type dev) st)
      as [b st1]. simpl in Hdb, Hreg, Hoth. unfold Return. cbn [fst snd].
    destruct (IH (log_add INFO (RestoredWorker (name dev) (id dev)) st1))
      as [Hdb' Hact].
    split; [by rewrite Hdb'|]. intros k. rewrite Hact, elem_of_cons.
    simpl. destruct (decide (k = id dev)) as [->|Hne].
    + tauto.
    + rewrite Hoth by done. tauto.
Qed.

Lemma lifespan_startup_effect st :
  db (lifespan_startup st) = db st
  ∧ ∀ k, is_Some (active_workers (lifespan_startup st) !! k)
         ↔ is_Some (active_workers st !! k)
           ∨ k ∈ id <$> get_active_devices (db st).
Proof.
  unfold lifespan_startup.
  destruct (get_active_devices (db st)) as [|dev devs] eqn:Hdevs.
  - unfold lifespan_startup_with. simpl db. rewrite Hdevs. simpl.
    split; [done|]. intros k. rewrite elem_of_nil. tauto.
  - rewrite (lifespan_startup_with_devices _ st _ Hdevs) by done.
    destruct (restore_workers_exact (dev :: devs)
                (log_add INFO (FoundActiveDevices (length (dev :: devs)))
                   (log_add INFO StartingDeviceWorkers st))) as [Hdb Hact].
    destruct (restore_workers _ _ _) as [[e|u] st']; simpl in *; by split.
Qed.

Lemma run_devices sched st : devices (db (run sched st)) = devices (db st).
Proof.
  revert st. induction sched as [|tid sched IH]; intros st; [done|].
  rewrite run_cons, IH. apply task_step_store.
Qed.

Lemma stop_device_worker_devices sched d b st st' :
  stop_device_worker sched d st = Some (b, st') →
  devices (db st') = devices (db st).
Proof.
  unfold stop_device_worker. destruct (active_workers st !! d) as [h|].
  - unfold await_task.
    destruct (task_done h (run (sched ++ [h]) (cancel h st))); [|discriminate].
    intros [= <- <-]. simpl. rewrite run_devices. unfold cancel.
    destruct (tasks st !! h) as [t|]; [|done].
    by destruct (bool_decide (t_state t = Cancelled)).
  - by intros [= <- <-].
Qed.

(** The toggle request for a device of the store. *)
Lemma toggle_endpoint_found sched d dev st :
  wf st → db_keyed (db st) → devices (db st) !! d = Some dev →
  ∃ dev' st',
    toggle_device_status_endpoint sched d st = Some (inr dev', st')
    ∧ id dev' = d
    ∧ status dev' = toggled (status dev)
    ∧ devices (db st') = <[d := dev']> (devices (db st))
    ∧ wf st'
    ∧ (is_Some (active_workers st' !! d) ↔ status dev' = ACTIVE)
    ∧ ∀ k, k ≠ d → active_workers st' !! k = active_workers st !! k.
Proof.
  intros Hwf Hkeyed Hd.
  destruct (toggle_found (db st) d dev (supply_head (utcnow st)) Hd)
    as (dev' & Hrun & Hstatus & Hid).
  assert (Hid' : id dev' = d) by (rewrite Hid; by apply Hkeyed).
  unfold toggle_device_status_endpoint. rewrite Hrun.
  set (st1 := with_store _ _ _ st).
  assert (Hwf1 : wf st1) by by apply (wf_but_ext _ st).
  exists dev'. destruct (decide (status dev' = ACTIVE)) as [Hact|Hina].
  - pose proof (wf_start (id dev') (name dev') (device_type dev') st1 Hwf1) as Hwf2.
    pose proof (start_device_worker_db (id dev') (name dev') (device_type dev') st1)
      as Hdb.
    pose proof (start_device_worker_registers (id dev') (name dev')
                  (device_type dev') st1) as Hreg.
    pose proof (start_device_worker_others (id dev') (name dev')
                  (device_type dev') st1) as Hoth.
    destruct (start_device_worker (id dev') (name dev') (device_type dev') st1)
      as [b st2]. simpl in *.
    exists st2. rewrite Hid' in *. split_and!; try done.
    by rewrite Hdb.
  - destruct (stop_device_worker_total sched (id dev') st1 Hwf1)
      as (b & st2 & Hstop & Hwf2 & Ha).
    pose proof (stop_device_worker_devices _ _ _ _ _ Hstop) as Hdev.
    rewrite Hstop. exists st2. rewrite Hid' in *. split_and!; try done.
    + rewrite Ha, lookup_delete_eq. split; [by intros [? ?]|done].
    + intros k Hk. rewrite Ha. by rewrite lookup_delete_ne.
Qed.

Lemma api_inv_startup store g ids times :
  db_keyed store → api_inv (lifespan_startup (initial_state store g ids times)).
Proof.
  intros Hkeyed.
  destruct (lifespan_startup_effect (initial_state store g ids times))
    as [Hdb Hact]. split_and!.
  - apply reachable_wf, lifespan_startup_reachable, reach_init.
  - by rewrite Hdb.
  - intros d. rewrite Hact, Hdb. simpl. rewrite lookup_empty, list_elem_of_fmap.
    split.
    + intros [[? ?]|(dev & -> & Hin)]; [done|].
      apply elem_of_get_active_devices in Hin as (k & Hk & Hs).
      exists dev. split; [|done]. by rewrite (Hkeyed k dev Hk).
    + intros (dev & Hdev & Hs). right. exists dev.
      split; [symmetry; by apply Hkeyed|].
      apply elem_of_get_active_devices. by exists d.
Qed.

Lemma api_inv_create str_upper data st :
  api_inv st → api_inv (create_device_endpoint str_upper data st).2.
Proof.
  intros (Hwf & Hkeyed & Hsync). unfold create_device_endpoint.
  destruct (create_device str_upper (db st) data (supply_head (uuid4 st))
              (supply_head (utcnow st))) as [[e|dev] store'] eqn:Hrun.
  - destruct e; simpl; (split_and!; [by apply (wf_but_ext _ st)|done|done]).
  - unfold create_device in Hrun.
    destruct (DeviceType_getitem _) as [ty|]; [|discriminate].
    destruct (devices (db st) !! supply_head (uuid4 st)) eqn:Hfree; [discriminate|].
    injection Hrun as <- <-. simpl. split_and!.
    + by apply (wf_but_ext _ st).
    + intros k dev. simpl. destruct (decide (k = supply_head (uuid4 st))) as [->|Hne].
      * rewrite lookup_insert_eq. by intros [= <-].
      * rewrite lookup_insert_ne by done. apply Hkeyed.
    + intros d. unfold in_sync in Hsync. rewrite Hsync. simpl.
      destruct (decide (d = supply_head (uuid4 st))) as [->|Hne].
      * rewrite lookup_insert_eq, Hfree. split.
        -- by intros (dev & ? & _).
        -- by intros (dev & [= <-] & ?).
      * by rewrite lookup_insert_ne.
Qed.

Lemma api_inv_toggle sched d r st st' :
  api_inv st → toggle_device_status_endpoint sched d st = Some (r, st') →
  api_inv st'.
Proof.
  intros (Hwf & Hkeyed & Hsync) Hrun.
  destruct (devices (db st) !! d) as [dev|] eqn:Hd.
  - destruct (toggle_endpoint_found sched d dev st Hwf Hkeyed Hd)
      as (dev' & st1 & Hrun' & Hid & Hs & Hdev & Hwf' & Hd' & Hoth).
    rewrite Hrun' in Hrun. injection Hrun as <- <-. split_and!; [done| |].
    + intros k dev0. rewrite Hdev. destruct (decide (k = d)) as [->|Hne].
      * rewrite lookup_insert_eq. by intros [= <-].
      * rewrite lookup_insert_ne by done. apply Hkeyed.
    + intros k. rewrite Hdev. destruct (decide (k = d)) as [->|Hne].
      * rewrite Hd', lookup_insert_eq. split; [by exists dev'|].
        by intros (dev0 & [= <-] & ?).
      * rewrite Hoth, lookup_insert_ne by done. apply Hsync.
  - unfold toggle_device_status_endpoint, toggle_device_status,
      get_device_by_id in Hrun. rewrite Hd in Hrun.
    by injection Hrun as <- <-.
Qed.

Lemma api_inv_task_step tid st : api_inv st → api_inv (task_step tid st).
Proof.
  intros (Hwf & Hkeyed & Hsync). destruct (task_step_store tid st) as [Hdev _].
  split_and!.
  - by apply wf_but_task_step.
  - intros k dev. rewrite Hdev. apply Hkeyed.
  - intros k. rewrite task_step_active_workers, Hdev. apply Hsync.
Qed.

Lemma api_reachable_inv str_upper st : api_reachable str_upper st → api_inv st.
Proof.
  induction 1.
  - by apply api_inv_startup.
  - by apply api_inv_create.
  - by eapply api_inv_toggle.
  - by apply api_inv_task_step.
Qed.
End Sync.

Lemma is_worker_active_true d st :
  is_worker_active d st = true ↔ is_Some (active_workers st !! d).
Proof. unfold is_worker_active. apply bool_decide_eq_true. Qed.

Lemma is_worker_active_false d st :
  is_worker_active d st = false ↔ active_workers st !! d = None.
Proof.
  unfold is_worker_active. rewrite bool_decide_eq_false.
  rewrite <- eq_None_not_Some. done.
Qed.

Lemma sample_store_keyed : db_keyed sample_store.
Proof.
  intros k dev. cbn [sample_store devices].
  rewrite !lookup_insert. repeat case_decide; try (intros [= <-]; by subst).
Qed.



(** X13. In a running application the toggle request for a device of the
    store returns the device with its status flipped, stores it, and leaves
    a worker registered for the device exactly when the new status is
    ACTIVE; the rows and the handles of the other devices are as before. *)
Theorem toggle_endpoint_mirrors_status str_upper sched d dev st :
  api_reachable str_upper st → devices (db st) !! d = Some dev →
  ∃ dev' st',
    toggle_device_status_endpoint sched d st = Some (inr dev', st')
    ∧ devices (db st') !! d = Some dev'
    ∧ (status dev = INACTIVE → status dev' = ACTIVE ∧ is_worker_active d st' = true)
    ∧ (status dev = ACTIVE → status dev' = INACTIVE ∧ is_worker_active d st' = false)
    ∧ ∀ k, k ≠ d →
           devices (db st') !! k = devices (db st) !! k
           ∧ active_workers st' !! k = active_workers st !! k.
Proof.
  intros (Hwf & Hkeyed & _)%api_reachable_inv Hd.
  destruct (toggle_endpoint_found sched d dev st Hwf Hkeyed Hd)
    as (dev' & st' & Hrun & _ & Hs & Hdev & _ & Hact & Hoth).
  exists dev', st'. split_and!; [done| | | |].
  - rewrite Hdev. apply lookup_insert_eq.
  - intros Hi. rewrite Hi in Hs. split; [done|].
    apply is_worker_active_true, Hact. by rewrite Hs.
  - intros Ha. rewrite Ha in Hs. split; [done|].
    apply is_worker_active_false. apply eq_None_not_Some. rewrite Hact, Hs. done.
  - intros k Hk. split; [|by apply Hoth]. rewrite Hdev. by apply lookup_insert_ne.
Qed.

Lemma toggle_endpoint_mirrors_status_witness :
  let st := lifespan_startup sample_state in
  api_reachable ascii_upper st
  ∧ devices (db st) !! 2%N = Some gate_b
  ∧ ∃ dev' st',
      toggle_device_status_endpoint [] 2%N st = Some (inr dev', st')
      ∧ status dev' = ACTIVE
      ∧ is_worker_active 2%N st' = true
      ∧ active_workers st' !! 1%N = active_workers st !! 1%N.
Proof.
  intros st.
  assert (Hreach : api_reachable ascii_upper st)
    by apply api_startup, sample_store_keyed.
  assert (Hd : devices (db st) !! 2%N = Some gate_b) by reflexivity.
  destruct (toggle_endpoint_mirrors_status ascii_upper [] 2%N gate_b st Hreach Hd)
    as (dev' & st' & Hrun & _ & Hon & _ & Hoth).
  destruct (Hon eq_refl) as [Hs Hw].
  split; [exact Hreach|]. split; [exact Hd|].
  exists dev', st'. split_and!; [exact Hrun|exact Hs|exact Hw|].
  by apply (Hoth 1%N).
Defined.

(** X14. Startup on an empty registry leaves the store as it is and a
    worker registered for exactly the devices whose status is ACTIVE: none
    for an inactive device, none for an id that is not in the store. *)
Theorem lifespan_startup_exact store g ids times d :
  db_keyed store →
  db (lifespan_startup (initial_state store g ids times)) = store
  ∧ (is_worker_active d (lifespan_startup (initial_state store g ids times)) = true
     ↔ ∃ dev, devices store !! d = Some dev ∧ status dev = ACTIVE).
Proof.
  intros Hkeyed.
  destruct (api_inv_startup store g ids times Hkeyed) as (_ & _ & Hsync).
  destruct (lifespan_startup_effect (initial_state store g ids times)) as [Hdb _].
  split; [done|]. rewrite is_worker_active_true.
  unfold in_sync in Hsync. by rewrite Hsync, Hdb.
Qed.

Lemma lifespan_startup_exact_witness :
  db_keyed sample_store
  ∧ is_worker_active 1%N (lifespan_startup sample_state) = true
  ∧ is_worker_active 2%N (lifespan_startup sample_state) = false
  ∧ is_worker_active 3%N (lifespan_startup sample_state) = true
  ∧ get_active_worker_count (lifespan_startup sample_state) = 2%nat.
Proof.
  pose proof sample_store_keyed as Hkeyed.
  destruct (lifespan_startup_exact sample_store (rng sample_state)
              (uuid4 sample_state) (utcnow sample_state) 1%N Hkeyed) as [_ H1].
  destruct (lifespan_startup_exact sample_store (rng sample_state)
              (uuid4 sample_state) (utcnow sample_state) 3%N Hkeyed) as [_ H3].
  split; [exact Hkeyed|]. split_and!.
  - apply H1. by exists gate_a.
  - by vm_compute.
  - apply H3. by exists gate_c.
  - by vm_compute.
Defined.

(** X15. In every state of a running application (startup, then create
    and toggle requests served one at a time, with the workers resumed in
    any order in between) a device has a registered worker exactly when its
    row is ACTIVE, and that worker is a running task of the loop, the only
    one of the device. *)
Theorem worker_presence_mirrors_status str_upper st d :
  api_reachable str_upper st →
  (is_worker_active d st = true
   ↔ ∃ dev, devices (db st) !! d = Some dev ∧ status dev = ACTIVE)
  ∧ (is_worker_active d st = true
     ↔ ∃ tid, live_for d st tid ∧ ∀ tid', live_for d st tid' → tid' = tid).
Proof.
  intros (Hwf & _ & Hsync)%api_reachable_inv. rewrite is_worker_active_true.
  split; [apply Hsync|]. split.
  - intros [h Hh]. exists h. by apply wf_single_worker.
  - intros (tid & (t & Ht & Hdev & Hlive) & _).
    destruct Hwf as [H1 _ _]. specialize (H1 _ _ Ht Hlive).
    rewrite Hdev in H1. by eexists.
Qed.

Lemma worker_presence_mirrors_status_witness :
  let st := (create_device_endpoint ascii_upper
               (mkDeviceCreate "Dock" "anpr" "10.0.0.4")
               (task_step 0%nat (lifespan_startup sample_state))).2 in
  api_reachable ascii_upper st
  ∧ is_Some (devices (db st) !! 100%N)
  ∧ is_worker_active 100%N st = false
  ∧ (is_worker_active 1%N st = true
     ↔ ∃ dev, devices (db st) !! 1%N = Some dev ∧ status dev = ACTIVE).
Proof.
  intros st.
  assert (Hreach : api_reachable ascii_upper st).
  { apply api_create, api_step, api_startup, sample_store_keyed. }
  destruct (worker_presence_mirrors_status ascii_upper st 1%N Hreach)
    as [Hsync _].
  split; [exact Hreach|]. split_and!; [|by vm_compute|exact Hsync].
  eexists. vm_compute. reflexivity.
Defined.

(** ** The registry and the tasks of the loop *)

Section Count.
Implicit Types (st : State) (d : UUID) (h : TaskId).

Lemma wf_count st : wf st → get_active_worker_count st = size (live_tasks st).
Proof.
  intros [H1 H2 _]. unfold get_active_worker_count.
  rewrite <- !length_map_to_list.
  rewrite <- (length_fmap snd (map_to_list (active_workers st))).
  rewrite <- (length_fmap fst (map_to_list (live_tasks st))).
  apply Permutation_length, NoDup_Permutation.
  - apply NoDup_fmap_2_strong; [|apply NoDup_map_to_list].
    intros [d1 h1] [d2 h2] Hin1%elem_of_map_to_list Hin2%elem_of_map_to_list Heq.
    simpl in Heq. subst h2.
    destruct (H2 _ _ Hin1) as (t1 & Ht1 & Hd1 & _).
    destruct (H2 _ _ Hin2) as (t2 & Ht2 & Hd2 & _).
    congruence.
  - apply NoDup_fst_map_to_list.
  - intros h. rewrite !list_elem_of_fmap. split.
    + intros ([d h'] & -> & Hin%elem_of_map_to_list). simpl.
      destruct (H2 _ _ Hin) as (t & Ht & _ & Hlive).
      destruct Hlive as [Hlive _]; [done|].
      exists (h', t). split; [done|].
      apply elem_of_map_to_list. unfold live_tasks.
      by apply map_lookup_filter_Some.
    + intros ([h' t] & -> & Hin%elem_of_map_to_list). simpl.
      unfold live_tasks in Hin.
      apply map_lookup_filter_Some in Hin as [Ht Hlive]. simpl in Hlive.
      exists (t_device_id t, h'). split; [done|].
      apply elem_of_map_to_list. by apply H1.
Qed.

Lemma wf_active_iff_running st d :
  wf st → is_Some (active_workers st !! d) ↔ ∃ tid, live_for d st tid.
Proof.
  intros Hwf. split.
  - intros [h Hh]. exists h. by apply wf_single_worker.
  - intros (tid & t & Ht & Hdev & Hlive).
    destruct Hwf as [H1 _ _]. specialize (H1 _ _ Ht Hlive).
    rewrite Hdev in H1. by eexists.
Qed.

Lemma stop_device_worker_map sched d b st st' :
  stop_device_worker sched d st = Some (b, st') →
  active_workers st' = delete d (active_workers st)
  ∧ next_task st' = next_task st.
Proof.
  unfold stop_device_worker. destruct (active_workers st !! d) as [h|] eqn:Hd.
  - unfold await_task.
    destruct (task_done h (run (sched ++ [h]) (cancel h st))); [|discriminate].
    intros [= <- <-]. simpl.
    assert (Hc : active_workers (cancel h st) = active_workers st
                 ∧ next_task (cancel h st) = next_task st).
    { unfold cancel. destruct (tasks st !! h) as [t|]; [|done].
      by destruct (bool_decide (t_state t = Cancelled)). }
    destruct Hc as [Hca Hcn]. rewrite run_active_workers, Hca. split; [done|].
    rewrite <- Hcn. generalize (cancel h st). intros s.
    induction (sched ++ [h])%list as [|tid l IH] using rev_ind; [done|].
    by rewrite run_snoc, task_step_next_task.
  - intros [= <- <-]. simpl. by rewrite delete_id.
Qed.
End Count.

(** X16. In every state the registry can reach, the status queries tell
    what runs: IsActive is true for a device exactly when a task of the loop
    is running for it, and ActiveCount is the number of tasks of the loop
    that have not finished. *)
Theorem status_queries_reflect_tasks st d :
  reachable st →
  (is_worker_active d st = true ↔ ∃ tid, live_for d st tid)
  ∧ get_active_worker_count st = size (live_tasks st).
Proof.
  intros Hwf%reachable_wf. split.
  - rewrite is_worker_active_true. by apply wf_active_iff_running.
  - by apply wf_count.
Qed.

Lemma status_queries_reflect_tasks_witness :
  let st := (start_device_worker 3%N "Lobby C" FACE_READER
               (start_device_worker 1%N "Gate A" ANPR sample_state).2).2 in
  ∃ st',
    stop_device_worker [0; 1]%nat 1%N st = Some (true, st')
    ∧ reachable st'
    ∧ size (tasks st') = 2%nat
    ∧ size (live_tasks st') = 1%nat
    ∧ get_active_worker_count st' = 1%nat
    ∧ (is_worker_active 3%N st' = true ↔ ∃ tid, live_for 3%N st' tid).
Proof.
  intros st.
  assert (Hreach : reachable st) by (do 2 apply reach_start; apply reach_init).
  assert (Hex : ∃ st', stop_device_worker [0; 1]%nat 1%N st = Some (true, st')
                       ∧ size (tasks st') = 2%nat
                       ∧ size (live_tasks st') = 1%nat).
  { eexists. split; [vm_compute; reflexivity|]. split; by vm_compute. }
  destruct Hex as (st' & Hstop & Hs1 & Hs2).
  assert (Hreach' : reachable st') by (by eapply reach_stop).
  destruct (status_queries_reflect_tasks st' 3%N Hreach') as [Hact Hcount].
  exists st'. split_and!; [exact Hstop|exact Hreach'|exact Hs1|exact Hs2| |exact Hact].
  by rewrite Hcount.
Defined.

(** X17. Stop is idempotent: after a Stop for a device, whatever it
    returned, a second Stop for the same device returns false and adds only
    its warning to the log. *)
Theorem stop_device_worker_twice sched sched' d b st st1 :
  stop_device_worker sched d st = Some (b, st1) →
  stop_device_worker sched' d st1
  = Some (false, log_add WARNING (NoWorkerFound d) st1).
Proof.
  intros [Ha _]%stop_device_worker_map.
  apply stop_device_worker_unregistered. rewrite Ha. apply lookup_delete_eq.
Qed.

Lemma stop_device_worker_twice_witness :
  let st := (start_device_worker 1%N "Gate A" ANPR sample_state).2 in
  ∃ st1,
    stop_device_worker [0]%nat 1%N st = Some (true, st1)
    ∧ stop_device_worker [] 1%N st1
      = Some (false, log_add WARNING (NoWorkerFound 1%N) st1).
Proof.
  intros st.
  assert (Hex : ∃ st1, stop_device_worker [0]%nat 1%N st = Some (true, st1)).
  { eexists. vm_compute. reflexivity. }
  destruct Hex as [st1 Hstop].
  exists st1. split; [exact Hstop|].
  exact (stop_device_worker_twice [0]%nat [] 1%N true st st1 Hstop).
Defined.

(** X18. Stop followed by Start restarts the device on a new task: both
    calls return true, the new handle differs from the old one, the old task
    stays finished, the new task is the only running worker of the device,
    and the count of active workers is what it was before the Stop. *)
Theorem restart_uses_new_task sched d h n ty st :
  reachable st → active_workers st !! d = Some h →
  ∃ st1 st2 h',
    stop_device_worker sched d st = Some (true, st1)
    ∧ start_device_worker d n ty st1 = (true, st2)
    ∧ active_workers st2 !! d = Some h'
    ∧ h' ≠ h
    ∧ task_done h st2 = true
    ∧ live_for d st2 h'
    ∧ (∀ tid, live_for d st2 tid → tid = h')
    ∧ get_active_worker_count st2 = get_active_worker_count st.
Proof.
  intros Hwf%reachable_wf Hd.
  destruct (stop_device_worker_registered sched d h st Hwf Hd)
    as (st1 & Hstop & Hwf1 & Ha1 & Hdone1).
  assert (Hd1 : active_workers st1 !! d = None)
    by (rewrite Ha1; apply lookup_delete_eq).
  destruct (start_device_worker_fresh d n ty st1 Hd1)
    as (st2 & Hstart & Ha2 & Ht2 & _).
  assert (Hwf2 : wf st2).
  { pose proof (wf_start d n ty st1 Hwf1) as Hw. by rewrite Hstart in Hw. }
  assert (Hd2 : active_workers st2 !! d = Some (next_task st1))
    by (rewrite Ha2; apply lookup_insert_eq).
  assert (Hne : next_task st1 ≠ h).
  { intros Heq. unfold task_done in Hdone1.
    destruct (tasks st1 !! h) as [t|] eqn:Ht; [|done].
    destruct Hwf1 as [_ _ H3]. specialize (H3 h (ex_intro _ t Ht)). lia. }
  exists st1, st2, (next_task st1). split_and!; try done.
  - unfold task_done in *. rewrite Ht2, lookup_insert_ne by done. exact Hdone1.
  - by apply wf_single_worker.
  - by apply wf_single_worker.
  - unfold get_active_worker_count.
    rewrite Ha2, Ha1, insert_delete_eq, map_size_insert_Some; [done|by eexists].
Qed.

Lemma restart_uses_new_task_witness :
  let st := (start_device_worker 1%N "Gate A" ANPR sample_state).2 in
  reachable st
  ∧ active_workers st !! 1%N = Some 0%nat
  ∧ ∃ st1 st2 h',
      stop_device_worker [0; 0]%nat 1%N st = Some (true, st1)
      ∧ start_device_worker 1%N "Gate A" ANPR st1 = (true, st2)
      ∧ active_workers st2 !! 1%N = Some h'
      ∧ h' ≠ 0%nat
      ∧ task_done 0%nat st2 = true
      ∧ get_active_worker_count st2 = 1%nat.
Proof.
  intros st.
  assert (Hreach : reachable st) by apply reach_start, reach_init.
  assert (Hd : active_workers st !! 1%N = Some 0%nat) by reflexivity.
  destruct (restart_uses_new_task [0; 0]%nat 1%N 0%nat "Gate A" ANPR st Hreach Hd)
    as (st1 & st2 & h' & Hstop & Hstart & Hh' & Hne & Hdone & _ & _ & Hcount).
  split; [exact Hreach|]. split; [exact Hd|].
  exists st1, st2, h'.
  split_and!; [exact Hstop|exact Hstart|exact Hh'|exact Hne|exact Hdone|].
  rewrite Hcount. reflexivity.
Defined.

(** X19. Start and Stop for one device leave the handle registered for
    every other device as it is. *)
Theorem lifecycle_leaves_other_devices d k st :
  k ≠ d →
  (∀ n ty,
     active_workers (start_device_worker d n ty st).2 !! k = active_workers st !! k)
  ∧ (∀ sched b st',
       stop_device_worker sched d st = Some (b, st') →
       active_workers st' !! k = active_workers st !! k).
Proof.
  intros Hne. split.
  - intros n ty. by apply start_device_worker_others.
  - intros sched b st' [Ha _]%stop_device_worker_map.
    rewrite Ha. by apply lookup_delete_ne.
Qed.

Lemma lifecycle_leaves_other_devices_witness :
  let st := (start_device_worker 3%N "Lobby C" FACE_READER
               (start_device_worker 1%N "Gate A" ANPR sample_state).2).2 in
  (3%N ≠ 1%N)
  ∧ active_workers (start_device_worker 1%N "Gate A" ANPR st).2 !! 3%N = Some 1%nat
  ∧ ∀ b st', stop_device_worker [1; 0]%nat 1%N st = Some (b, st') →
             active_workers st' !! 3%N = Some 1%nat.
Proof.
  intros st. assert (Hne : 3%N ≠ 1%N) by discriminate.
  destruct (lifecycle_leaves_other_devices 1%N 3%N st Hne) as [Hstart Hstop].
  split; [exact Hne|]. split.
  - etrans; [apply Hstart|reflexivity].
  - intros b st' Hrun. etrans; [apply (Hstop _ _ _ Hrun)|reflexivity].
Defined.

(** ** Toggling and the reconciler's query *)

(** X21. On a store whose rows are stored under their ids, toggling device
    [d] changes the answer of [get_active_devices] for [d] only: [d] is
    listed afterwards exactly when it was INACTIVE before, and every other id
    is listed exactly when it was. *)
Theorem toggle_moves_active_listing store d dev now k :
  db_keyed store → devices store !! d = Some dev →
  k ∈ id <$> get_active_devices (toggle_device_status store d now).2
  ↔ if decide (k = d) then status dev = INACTIVE
    else k ∈ id <$> get_active_devices store.
Proof.
  intros Hkeyed Hd.
  destruct (toggle_found store d dev now Hd) as (dev' & -> & Hs & Hid).
  assert (Hid' : id dev' = d) by (rewrite Hid; by apply Hkeyed).
  destruct (decide (k = d)) as [Heq|Hne]; [subst k|];
    rewrite !list_elem_of_fmap; setoid_rewrite elem_of_get_active_devices; simpl.
  - split.
    + intros (x & Hx & j & Hj & Hact).
      destruct (decide (j = d)) as [->|Hjd].
      * rewrite lookup_insert_eq in Hj. injection Hj as <-.
        rewrite Hs in Hact. by destruct (status dev).
      * rewrite lookup_insert_ne in Hj by done.
        rewrite (Hkeyed j x Hj) in Hx. congruence.
    + intros Hina. exists dev'. split; [done|]. exists d.
      rewrite lookup_insert_eq. split; [done|]. by rewrite Hs, Hina.
  - split.
    + intros (x & -> & j & Hj & Hact).
      destruct (decide (j = d)) as [->|Hjd].
      * rewrite lookup_insert_eq in Hj. injection Hj as <-. done.
      * rewrite lookup_insert_ne in Hj by done. exists x. split; [done|].
        by exists j.
    + intros (x & -> & j & Hj & Hact).
      assert (j ≠ d) by (rewrite <- (Hkeyed j x Hj); done).
      exists x. split; [done|]. exists j. by rewrite lookup_insert_ne.
Qed.

Lemma toggle_moves_active_listing_witness :
  db_keyed sample_store
  ∧ devices sample_store !! 2%N = Some gate_b
  ∧ 2%N ∈ id <$> get_active_devices (toggle_device_status sample_store 2%N 5%Z).2
  ∧ (1%N ∈ id <$> get_active_devices (toggle_device_status sample_store 2%N 5%Z).2
     ↔ 1%N ∈ id <$> get_active_devices sample_store).
Proof.
  pose proof sample_store_keyed as Hkeyed.
  assert (Hd : devices sample_store !! 2%N = Some gate_b) by reflexivity.
  split; [exact Hkeyed|]. split; [exact Hd|]. split.
  - apply (toggle_moves_active_listing sample_store 2%N gate_b 5%Z 2%N Hkeyed Hd).
    reflexivity.
  - exact (toggle_moves_active_listing sample_store 2%N gate_b 5%Z 1%N Hkeyed Hd).
Defined.

(** ** A worker stopped before it ran *)

Section StartStop.
Implicit Types (st : State) (d : UUID).

Lemma quiet_task_step d tid st :
  quiet d st →
  quiet d (task_step tid st)
  ∧ transactions_of d (task_step tid st) = transactions_of d st.
Proof.
  intros Hq. split.
  - intros tid' t'. rewrite task_step_tasks.
    destruct (decide (tid' = tid)) as [->|Hne].
    + rewrite lookup_alter_eq.
      destruct (tasks st !! tid) as [t|] eqn:Ht; [|done].
      intros [= <-]. rewrite step_task_device, step_task_must_cancel.
      intros Hdev. left. apply step_task_cancelled. by eapply Hq.
    + rewrite lookup_alter_ne by done. apply Hq.
  - unfold task_step. destruct (tasks st !! tid) as [t|] eqn:Ht; [|done].
    destruct (t_state t) eqn:Hs, (t_must_cancel t) eqn:Hc; try done.
    apply worker_iteration_other. intros Hdev.
    destruct (Hq _ _ Ht Hdev); congruence.
Qed.

Lemma quiet_run d sched st :
  quiet d st → transactions_of d (run sched st) = transactions_of d st.
Proof.
  revert st. induction sched as [|tid sched IH]; intros st Hq; [done|].
  rewrite run_cons. destruct (quiet_task_step d tid st Hq) as [Hq' Htx].
  by rewrite IH, Htx.
Qed.
End StartStop.

(** X22. When Start registers a worker and Stop follows at once, the
    worker never gets to emit: the transactions of the device in the store
    after Stop returns are those from before the Start, also when the loop
    resumes the new task while Stop waits for it. *)
Theorem start_then_stop_emits_nothing sched d n ty st0 st st' :
  reachable st0 →
  start_device_worker d n ty st0 = (true, st) →
  stop_device_worker sched d st = Some (true, st') →
  transactions_of d st' = transactions_of d st0
  ∧ devices (db st') = devices (db st0).
Proof.
  intros Hwf0%reachable_wf Hstart Hstop.
  destruct (active_workers st0 !! d) as [h0|] eqn:Hd0.
  { rewrite (start_device_worker_taken d n ty h0) in Hstart by done.
    discriminate Hstart. }
  destruct (start_device_worker_fresh d n ty st0 Hd0)
    as (st1 & Hrun1 & Ha1 & Ht1 & Hdb1).
  assert (st1 = st) as -> by congruence.
  pose proof (wf_no_worker d st0 Hwf0 Hd0) as Hno.
  assert (Hfresh : tasks st0 !! next_task st0 = None).
  { destruct (tasks st0 !! next_task st0) as [t|] eqn:Ht; [|done].
    destruct Hwf0 as [_ _ H3]. specialize (H3 _ (ex_intro _ t Ht)). lia. }
  unfold stop_device_worker in Hstop.
  rewrite Ha1, lookup_insert_eq in Hstop. unfold await_task in Hstop.
  destruct (task_done _ _); [|discriminate].
  injection Hstop as <-.
  assert (Hq : quiet d (cancel (next_task st0) st)).
  { unfold cancel. rewrite Ht1, lookup_insert_eq. simpl.
    intros tid t. simpl.
    destruct (decide (tid = next_task st0)) as [->|Hne].
    - rewrite lookup_insert_eq. intros [= <-]. by right.
    - rewrite lookup_insert_ne by done. rewrite Ht1, lookup_insert_ne by done.
      intros Ht Hdev. left. by eapply Hno. }
  split.
  - unfold transactions_of at 1. simpl. fold (transactions_of d (run
      (sched ++ [next_task st0]) (cancel (next_task st0) st))).
    rewrite (quiet_run d _ _ Hq). unfold transactions_of, cancel.
    rewrite Ht1, lookup_insert_eq. simpl. by rewrite Hdb1.
  - simpl. rewrite run_devices. unfold cancel.
    rewrite Ht1, lookup_insert_eq. simpl. by rewrite Hdb1.
Qed.

Lemma start_then_stop_emits_nothing_witness :
  reachable sample_busy_state
  ∧ ∃ st st',
      start_device_worker 2%N "Door B" ACCESS_CONTROLLER sample_busy_state = (true, st)
      ∧ stop_device_worker [2; 0; 2; 1]%nat 2%N st = Some (true, st')
      ∧ transactions_of 2%N st' = transactions_of 2%N sample_busy_state
      ∧ size (transactions (db st')) = 6%nat.
Proof.
  assert (Hreach : reachable sample_busy_state).
  { unfold sample_busy_state, run. simpl.
    do 6 apply reach_step. do 2 apply reach_start. apply reach_init. }
  split; [exact Hreach|].
  assert (Hex : ∃ st st',
            start_device_worker 2%N "Door B" ACCESS_CONTROLLER sample_busy_state
            = (true, st)
            ∧ stop_device_worker [2; 0; 2; 1]%nat 2%N st = Some (true, st')
            ∧ size (transactions (db st')) = 6%nat).
  { eexists _, _. split; [reflexivity|]. split; [vm_compute; reflexivity|].
    by vm_compute. }
  destruct Hex as (st & st' & Hstart & Hstop & Hsize).
  destruct (start_then_stop_emits_nothing _ _ _ _ _ _ _ Hreach Hstart Hstop)
    as [Htx _].
  exists st, st'. split_and!; [exact Hstart|exact Hstop|exact Htx|exact Hsize].
Defined.
